(** * Function discovery for MS-DOS MZ executables

    A shallow embedding of [re/scripts/discover_functions.py]
    (class [DOSExeAnalyzer]) and the properties of the symbol catalog it
    exports.  The image is a [list byte]; Python integers are [Z]; the
    dictionaries [functions] and [call_sources] are [gmap Z _]; Python
    sets of addresses are [gset Z]. *)

From Stdlib Require Import ZArith Lia List Strings.Byte Strings.Ascii Hexadecimal.
From Stdlib Require HexadecimalN.
From stdpp Require Import gmap strings list fin_maps sorting.

Open Scope Z_scope.

#[global] Instance byte_eq_dec : EqDecision byte := Byte.byte_eq_dec.

(** ** Python primitives on [bytes] *)

Module Py.

(** The integer value of one byte, [code[i]]. *)
Definition b2z (b : byte) : Z := Z.of_N (Byte.to_N b).

(** [len(buf)] *)
Definition len {A} (l : list A) : Z := Z.of_nat (length l).

(** A slice bound as Python normalises it: a negative bound counts from
    the end, and every bound is clamped into [0, len]. *)
Definition norm_bound (n i : Z) : Z :=
  if i <? 0 then Z.max 0 (i + n) else Z.min i n.

(** [buf[a:b]] *)
Definition slice {A} (l : list A) (a b : Z) : list A :=
  let a' := norm_bound (len l) a in
  let b' := norm_bound (len l) b in
  take (Z.to_nat (b' - a')) (drop (Z.to_nat a') l).

(** [buf[a:]] *)
Definition slice_from {A} (l : list A) (a : Z) : list A :=
  drop (Z.to_nat (norm_bound (len l) a)) l.

(** [struct.unpack_from('<H', buf, off)[0]]; [None] stands for
    [struct.error] (fewer than two bytes at [off]). *)
Definition unpack_H (buf : list byte) (off : nat) : option Z :=
  match drop off buf with
  | lo :: hi :: _ => Some (b2z lo + 256 * b2z hi)
  | _ => None
  end.

(** Two bytes read as an unsigned ([<H]) and as a signed ([<h])
    little-endian 16-bit integer. *)
Definition u16 (lo hi : byte) : Z := b2z lo + 256 * b2z hi.
Definition s16 (lo hi : byte) : Z :=
  let u := u16 lo hi in if u <? 32768 then u else u - 65536.

(** [rest.startswith(pattern)] *)
Fixpoint starts_with (pattern rest : list byte) : bool :=
  match pattern, rest with
  | [], _ => true
  | p :: ps, r :: rs => if Byte.eqb p r then starts_with ps rs else false
  | _ :: _, [] => false
  end.

(** The search of [buf.find(pattern, pos)] over the suffix [buf[idx:]]. *)
Fixpoint find_in (pattern rest : list byte) (idx : Z) : Z :=
  match rest with
  | [] => if starts_with pattern [] then idx else -1
  | _ :: tl => if starts_with pattern rest then idx
              else find_in pattern tl (idx + 1)
  end.

(** [buf.find(pattern, pos)] for [pos >= 0]: the lowest index [>= pos]
    where [pattern] occurs, or [-1]. *)
Definition find (buf pattern : list byte) (pos : Z) : Z :=
  if len buf <? pos then -1
  else find_in pattern (drop (Z.to_nat pos) buf) pos.

(** Upper-case hexadecimal digits, as the format specifier [X] prints. *)
Fixpoint hex_digits (d : Hexadecimal.uint) : string :=
  match d with
  | Nil => ""
  | D0 d => String "0"%char (hex_digits d)
  | D1 d => String "1"%char (hex_digits d)
  | D2 d => String "2"%char (hex_digits d)
  | D3 d => String "3"%char (hex_digits d)
  | D4 d => String "4"%char (hex_digits d)
  | D5 d => String "5"%char (hex_digits d)
  | D6 d => String "6"%char (hex_digits d)
  | D7 d => String "7"%char (hex_digits d)
  | D8 d => String "8"%char (hex_digits d)
  | D9 d => String "9"%char (hex_digits d)
  | Da d => String "A"%char (hex_digits d)
  | Db d => String "B"%char (hex_digits d)
  | Dc d => String "C"%char (hex_digits d)
  | Dd d => String "D"%char (hex_digits d)
  | De d => String "E"%char (hex_digits d)
  | Df d => String "F"%char (hex_digits d)
  end.

(** The digits of [abs n] and the sign [format] puts before them. *)
Definition abs_digits (n : Z) : string := hex_digits (N.to_hex_uint (Z.abs_N n)).
Definition sign (n : Z) : string := if n <? 0 then "-" else "".

(** [f"{n:X}"] *)
Definition fmt_X (n : Z) : string := sign n +:+ abs_digits n.

Fixpoint zeros (k : nat) : string :=
  match k with O => "" | S k => String "0"%char (zeros k) end.

(** [f"{n:0wX}"]: zero padding goes between the sign and the digits. *)
Definition fmt_0X (w : nat) (n : Z) : string :=
  let s := sign n in
  let d := abs_digits n in
  s +:+ zeros (w - String.length s - String.length d) +:+ d.

(** [f"0x{n:X}"] *)
Definition hex (n : Z) : string := "0x" +:+ fmt_X n.

(** [f"0x{n:02X}"] *)
Definition hex02 (n : Z) : string := "0x" +:+ fmt_0X 2 n.

(** [s.startswith(p)] on strings *)
Fixpoint str_startswith (p s : string) : bool :=
  match p, s with
  | EmptyString, _ => true
  | String a p', String b s' =>
      if Ascii.eqb a b then str_startswith p' s' else false
  | String _ _, EmptyString => false
  end.

(** [s.lower()] on ASCII text: the letters A to Z move to a to z, every
    other character stays. *)
Definition lower_char (c : ascii) : ascii :=
  let n := N_of_ascii c in
  if ((65 <=? n) && (n <=? 90))%N then ascii_of_N (n + 32) else c.

Fixpoint str_lower (s : string) : string :=
  match s with
  | EmptyString => EmptyString
  | String c s' => String (lower_char c) (str_lower s')
  end.

End Py.

(** ** Data model *)

(** [@dataclass FunctionInfo] *)
Record FunctionInfo := mkFunctionInfo {
  name : string;
  entry_linear : string;
  size_bytes : Z;
  stack_frame_size : Z;
  subsystem : string;
  callers : list string;
  int_usage : list string;
  source_recording_id : string;
  notes : string
}.

(** [FunctionInfo(name=.., entry_linear=.., callers=.., notes=..)] with
    the dataclass defaults for the other fields. *)
Definition new_FunctionInfo (nm el : string) (cs : list string) (nt : string)
  : FunctionInfo :=
  {| name := nm; entry_linear := el; size_bytes := 0; stack_frame_size := 0;
     subsystem := "unknown"; callers := cs; int_usage := [];
     source_recording_id := ""; notes := nt |}.

Definition set_size_bytes (n : Z) (f : FunctionInfo) : FunctionInfo :=
  {| name := name f; entry_linear := entry_linear f; size_bytes := n;
     stack_frame_size := stack_frame_size f; subsystem := subsystem f;
     callers := callers f; int_usage := int_usage f;
     source_recording_id := source_recording_id f; notes := notes f |}.

Definition set_int_usage (ints : list string) (sub : string) (f : FunctionInfo)
  : FunctionInfo :=
  {| name := name f; entry_linear := entry_linear f; size_bytes := size_bytes f;
     stack_frame_size := stack_frame_size f; subsystem := sub;
     callers := callers f; int_usage := ints;
     source_recording_id := source_recording_id f; notes := notes f |}.

Definition set_callers (cs : list string) (f : FunctionInfo) : FunctionInfo :=
  {| name := name f; entry_linear := entry_linear f; size_bytes := size_bytes f;
     stack_frame_size := stack_frame_size f; subsystem := subsystem f;
     callers := cs; int_usage := int_usage f;
     source_recording_id := source_recording_id f; notes := notes f |}.

(** The exceptions the constructor can raise. *)
Inductive error :=
  | ValueError    (* "Not a valid MZ executable" *)
  | StructError.  (* struct.error: buffer too short for a header field *)

(** The fields of a [DOSExeAnalyzer] object. *)
Record DOSExeAnalyzer := mkAnalyzer {
  data : list byte;
  e_cblp : Z; e_cp : Z; e_crlc : Z; e_cparhdr : Z;
  e_minalloc : Z; e_maxalloc : Z; e_ss : Z; e_sp : Z;
  e_csum : Z; e_ip : Z; e_cs : Z; e_lfarlc : Z;
  header_size : Z;
  code_start : Z;
  entry_point : Z;
  functions : gmap Z FunctionInfo;
  call_sources : gmap Z (list Z)
}.

(** ** [DOSExeAnalyzer.__init__] and [_parse_mz_header] *)

Definition MZ_magic : list byte := [x4d; x5a].

Definition parse_mz_header (buf : list byte) : error + DOSExeAnalyzer :=
  if bool_decide (Py.slice buf 0 2 = MZ_magic) then
    let fields : option DOSExeAnalyzer :=
      cblp ← Py.unpack_H buf 2;
      cp ← Py.unpack_H buf 4;
      crlc ← Py.unpack_H buf 6;
      cparhdr ← Py.unpack_H buf 8;
      minalloc ← Py.unpack_H buf 10;
      maxalloc ← Py.unpack_H buf 12;
      ss ← Py.unpack_H buf 14;
      sp ← Py.unpack_H buf 16;
      csum ← Py.unpack_H buf 18;
      ip ← Py.unpack_H buf 20;
      cs ← Py.unpack_H buf 22;
      lfarlc ← Py.unpack_H buf 24;
      Some {| data := buf;
              e_cblp := cblp; e_cp := cp; e_crlc := crlc;
              e_cparhdr := cparhdr; e_minalloc := minalloc;
              e_maxalloc := maxalloc; e_ss := ss; e_sp := sp;
              e_csum := csum; e_ip := ip; e_cs := cs; e_lfarlc := lfarlc;
              header_size := cparhdr * 16;
              code_start := cparhdr * 16;
              entry_point := cs * 16 + ip;
              functions := ∅;
              call_sources := ∅ |} in
    match fields with
    | Some a => inr a
    | None => inl StructError
    end
  else inl ValueError.

(** ** Class constants *)

Definition PROLOGUE_PATTERNS : list (list byte) :=
  [ [x55; x8b; xec];   (* PUSH BP; MOV BP, SP *)
    [x55; x89; xe5];   (* PUSH BP; MOV BP, SP (alternate encoding) *)
    [x55; x8b; xe5];   (* PUSH BP; MOV BP, SP (alternate) *)
    [xc8];             (* ENTER *)
    [x55] ].           (* just PUSH BP *)

Definition CALL_NEAR_REL16 : Z := 0xE8.
Definition CALL_FAR_PTR : Z := 0x9A.
Definition CALL_RM16 : Z := 0xFF.

Definition RET_NEAR : Z := 0xC3.
Definition RET_NEAR_IMM : Z := 0xC2.
Definition RET_FAR : Z := 0xCB.
Definition RET_FAR_IMM : Z := 0xCA.

(** The opcodes a bare PUSH BP must be followed by. *)
Definition PUSH_BP_FOLLOWERS : list Z := [0x8B; 0x89; 0x83; 0x56; 0x57; 0x1E; 0x06].

(** ** [find_prologue_patterns] *)

(** The context check on a match at [idx]: a bare PUSH BP that has a
    next byte outside the list of accepted followers is skipped. *)
Definition push_bp_rejected (code pattern : list byte) (idx : Z) : bool :=
  bool_decide (pattern = [x55]) &&
  (idx + 1 <? Py.len code) &&
  match code !! Z.to_nat (idx + 1) with
  | Some next_byte => bool_decide (Py.b2z next_byte ∉ PUSH_BP_FOLLOWERS)
  | None => false
  end.

(** One pass through the body of [while True]: [None] is [break],
    otherwise the new [(pos, prologues)]. *)
Definition prologue_step (cstart : Z) (code pattern : list byte)
    (st : Z * gset Z) : option (Z * gset Z) :=
  let '(pos, prologues) := st in
  let idx := Py.find code pattern pos in
  if idx =? -1 then None
  else
    let offset := cstart + idx in
    if push_bp_rejected code pattern idx then Some (idx + 1, prologues)
    else Some (idx + 1, {[offset]} ∪ prologues).

(** The [while True] loop, bounded by [fuel] iterations; [None] when the
    fuel runs out before the loop breaks. *)
Fixpoint prologue_loop (fuel : nat) (cstart : Z) (code pattern : list byte)
    (st : Z * gset Z) : option (gset Z) :=
  match fuel with
  | O => None
  | S fuel =>
      match prologue_step cstart code pattern st with
      | None => Some (snd st)
      | Some st' => prologue_loop fuel cstart code pattern st'
      end
  end.

(** The scan for one pattern, starting at [pos = 0].  [pos] grows by at
    least one per iteration and never passes [len(code)], so
    [len(code) + 1] iterations always reach the [break]
    (lemma [prologue_loop_breaks] below); the default is never used. *)
Definition scan_pattern (cstart : Z) (code : list byte)
    (prologues : gset Z) (pattern : list byte) : gset Z :=
  default prologues
    (prologue_loop (S (length code)) cstart code pattern (0, prologues)).

Definition find_prologue_patterns (a : DOSExeAnalyzer) : gset Z :=
  let code := Py.slice_from (data a) (code_start a) in
  foldl (scan_pattern (code_start a) code) ∅ PROLOGUE_PATTERNS.

(** ** [find_call_targets] *)

(** The state the sweep updates: the local set [targets] and the
    dictionary [self.call_sources]. *)
Definition call_state : Type := gset Z * gmap Z (list Z).

(** [targets.add(target)] and the append to [call_sources[target]]. *)
Definition record_call (target source : Z) (st : call_state) : call_state :=
  let '(targets, sources) := st in
  let sources1 :=
    if bool_decide (target ∉ dom sources) then <[target := []]> sources
    else sources in
  ({[target]} ∪ targets,
   <[target := default [] (sources1 !! target) ++ [source]]> sources1).

(** The bounds check [0 <= target < len(self.data)] and what follows it. *)
Definition accept_call (data_len target source : Z) (st : call_state)
  : call_state :=
  if (0 <=? target) && (target <? data_len) then record_call target source st
  else st.

(** The [while i < len(code) - 3] loop.  [n] is [len(code)] and [rest]
    is [code[i:]], so the operand bytes [code[i+1..]] are the next
    elements of [rest]. *)
Fixpoint call_loop (cstart data_len n i : Z) (rest : list byte)
    (st : call_state) {struct rest} : call_state :=
  if i <? n - 3 then
    match rest with
    | [] => st
    | opcode :: tl =>
        if Py.b2z opcode =? CALL_NEAR_REL16 then
          match tl with
          | lo :: hi :: rest3 =>
              let st' :=
                if i + 3 <=? n then
                  let rel16 := Py.s16 lo hi in
                  let target := cstart + i + 3 + rel16 in
                  accept_call data_len target (cstart + i) st
                else st in
              call_loop cstart data_len n (i + 3) rest3 st'
          | _ => st
          end
        else if Py.b2z opcode =? CALL_FAR_PTR then
          match tl with
          | olo :: ohi :: slo :: shi :: rest5 =>
              let st' :=
                if i + 5 <=? n then
                  let offset := Py.u16 olo ohi in
                  let segment := Py.u16 slo shi in
                  let target := segment * 16 + offset in
                  accept_call data_len target (cstart + i) st
                else st in
              call_loop cstart data_len n (i + 5) rest5 st'
          | _ => st   (* i + 5 > len(code): nothing recorded, loop ends *)
          end
        else if Py.b2z opcode =? CALL_RM16 then
          call_loop cstart data_len n (i + 1) tl st
        else
          call_loop cstart data_len n (i + 1) tl st
    end
  else st.

(** Returns the set [targets] and the updated [self.call_sources]. *)
Definition find_call_targets (a : DOSExeAnalyzer) : call_state :=
  let code := Py.slice_from (data a) (code_start a) in
  call_loop (code_start a) (Py.len (data a)) (Py.len code) 0 code
    (∅, call_sources a).

(** ** [_find_containing_function] and [find_interrupt_handlers] *)

Definition find_containing_function (fs : gmap Z FunctionInfo) (addr : Z)
  : option Z :=
  let candidates := filter (λ f, f ≤ addr) (elements (dom fs)) in
  match candidates with
  | [] => None
  | c :: cs => Some (foldl Z.max c cs)
  end.

Definition note_interrupt (func_addr : Z) (int_str : string)
    (iu : gmap Z (list string)) : gmap Z (list string) :=
  let iu1 :=
    if bool_decide (func_addr ∉ dom iu) then <[func_addr := []]> iu else iu in
  let cur := default [] (iu1 !! func_addr) in
  if bool_decide (int_str ∉ cur) then <[func_addr := cur ++ [int_str]]> iu1
  else iu1.

Fixpoint int_loop (cstart n : Z) (fs : gmap Z FunctionInfo) (i : Z)
    (rest : list byte) (iu : gmap Z (list string)) {struct rest}
  : gmap Z (list string) :=
  if i <? n - 1 then
    match rest with
    | [] => iu
    | b :: tl =>
        if Py.b2z b =? 0xCD then
          match tl with
          | int_num :: rest2 =>
              let offset := cstart + i in
              let int_str := Py.hex02 (Py.b2z int_num) in
              let iu' :=
                match find_containing_function fs offset with
                | Some func_addr => note_interrupt func_addr int_str iu
                | None => iu
                end in
              int_loop cstart n fs (i + 2) rest2 iu'
          | [] => iu
          end
        else int_loop cstart n fs (i + 1) tl iu
    end
  else iu.

Definition find_interrupt_handlers (a : DOSExeAnalyzer)
    (fs : gmap Z FunctionInfo) : gmap Z (list string) :=
  let code := Py.slice_from (data a) (code_start a) in
  int_loop (code_start a) (Py.len code) fs 0 code ∅.

(** ** [classify_subsystem] *)

Definition classify_subsystem (addr : Z) (int_usage : list string) : string :=
  if bool_decide ("0x10" ∈ int_usage) then "video"
  else if bool_decide ("0x21" ∈ int_usage) then "dos"
  else if bool_decide ("0x16" ∈ int_usage) then "input"
  else if bool_decide ("0x08" ∈ int_usage) || bool_decide ("0x1C" ∈ int_usage)
  then "timer"
  else if bool_decide ("0x33" ∈ int_usage) then "mouse"
  else if bool_decide ("0x80" ∈ int_usage) || bool_decide ("0x81" ∈ int_usage)
  then "sound"
  else "unknown".

(** ** [estimate_function_sizes] *)

Definition is_ret (b : byte) : bool :=
  bool_decide (Py.b2z b ∈ [RET_NEAR; RET_NEAR_IMM; RET_FAR; RET_FAR_IMM]).

(** The inner [for j, b in enumerate(code)] loop: [ret_offset], or
    [None] when no RET byte is met. *)
Fixpoint first_ret (j : Z) (code : list byte) : option Z :=
  match code with
  | [] => None
  | b :: tl => if is_ret b then Some (j + 1) else first_ret (j + 1) tl
  end.

Definition estimate_size (buf : list byte) (addr next_func : Z) : Z :=
  let code := Py.slice buf addr next_func in
  match first_ret 0 code with
  | Some ret_offset =>
      if ret_offset =? 0 then Z.min (next_func - addr) 0xFFFF else ret_offset
  | None => Z.min (next_func - addr) 0xFFFF
  end.

(** The loop over [enumerate(sorted_addrs)]: the head of the remaining
    list is [sorted_addrs[i]], the element after it [sorted_addrs[i+1]]. *)
Fixpoint estimate_loop (buf : list byte) (sorted_addrs : list Z)
    (fs : gmap Z FunctionInfo) : gmap Z FunctionInfo :=
  match sorted_addrs with
  | [] => fs
  | addr :: later =>
      let next_func :=
        match later with
        | next :: _ => next
        | [] => Py.len buf
        end in
      estimate_loop buf later
        (alter (set_size_bytes (estimate_size buf addr next_func)) addr fs)
  end.

(** [sorted(self.functions.keys())] *)
Definition sorted_keys {A} (fs : gmap Z A) : list Z :=
  merge_sort Z.le (elements (dom fs)).

Definition estimate_function_sizes (buf : list byte)
    (fs : gmap Z FunctionInfo) : gmap Z FunctionInfo :=
  estimate_loop buf (sorted_keys fs) fs.

(** ** [analyze] *)

(** The body of the two merge loops: a candidate becomes a record only
    if its address has none yet and lies in the code section. *)
Definition add_candidate (cstart : Z) (sources : gmap Z (list Z))
    (note : string) (addr : Z) (fs : gmap Z FunctionInfo)
  : gmap Z FunctionInfo :=
  if bool_decide (addr ∉ dom fs) && (cstart <=? addr) then
    let callers := Py.hex <$> default [] (sources !! addr) in
    <[addr := new_FunctionInfo ("FUN_" +:+ Py.fmt_0X 5 addr) (Py.hex addr)
                callers note]> fs
  else fs.

(** The body of the loop over [int_usage.items()]. *)
Definition apply_int_usage (addr : Z) (ints : list string)
    (fs : gmap Z FunctionInfo) : gmap Z FunctionInfo :=
  if bool_decide (addr ∈ dom fs) then
    alter (set_int_usage ints (classify_subsystem addr ints)) addr fs
  else fs.

Definition with_results (a : DOSExeAnalyzer) (fs : gmap Z FunctionInfo)
    (sources : gmap Z (list Z)) : DOSExeAnalyzer :=
  {| data := data a;
     e_cblp := e_cblp a; e_cp := e_cp a; e_crlc := e_crlc a;
     e_cparhdr := e_cparhdr a; e_minalloc := e_minalloc a;
     e_maxalloc := e_maxalloc a; e_ss := e_ss a; e_sp := e_sp a;
     e_csum := e_csum a; e_ip := e_ip a; e_cs := e_cs a;
     e_lfarlc := e_lfarlc a;
     header_size := header_size a; code_start := code_start a;
     entry_point := entry_point a;
     functions := fs; call_sources := sources |}.

(** Steps 1 to 4: the entry record and the merge of the candidates.
    Returns the function table and the call-edge map. *)
Definition merge_candidates (a : DOSExeAnalyzer)
  : gmap Z FunctionInfo * gmap Z (list Z) :=
  let entry_info :=
    new_FunctionInfo "entry" (Py.hex (entry_point a)) [] "Program entry point" in
  let fs0 := <[entry_point a := entry_info]> (functions a) in
  let prologues := find_prologue_patterns a in
  let '(call_targets, sources) := find_call_targets a in
  let high_confidence := prologues ∩ call_targets in
  let fs1 :=
    set_fold (add_candidate (code_start a) sources
                "auto-discovered (prologue+call)") fs0 high_confidence in
  let fs2 :=
    set_fold (add_candidate (code_start a) sources
                "auto-discovered (call target)") fs1
             (call_targets ∖ high_confidence) in
  (fs2, sources).

Definition analyze (a : DOSExeAnalyzer) : DOSExeAnalyzer :=
  let '(fs2, sources) := merge_candidates a in
  (* Step 5: interrupt usage *)
  let int_usage := find_interrupt_handlers a fs2 in
  let fs3 := map_fold apply_int_usage fs2 int_usage in
  (* Step 6: sizes *)
  let fs4 := estimate_function_sizes (data a) fs3 in
  with_results a fs4 sources.

(** ** [export_json] *)

(** One element of the ["functions"] array; it has the fields of
    [FunctionInfo], with [callers] cut to its first ten entries. *)
Definition export_record (f : FunctionInfo) : FunctionInfo :=
  set_callers (take 10 (callers f)) f.

(** The exported document.  The content hash and the timestamp are left
    out: nothing below depends on them. *)
Record Catalog := mkCatalog {
  program_name : string;
  language : string;
  cat_functions : list FunctionInfo
}.

Definition export_functions (fs : gmap Z FunctionInfo) : list FunctionInfo :=
  omap (λ addr, export_record <$> fs !! addr) (sorted_keys fs).

Definition export_json (a : DOSExeAnalyzer) : Catalog :=
  {| program_name := "GP.EXE";
     language := "x86:LE:16:Real Mode / default";
     cat_functions := export_functions (functions a) |}.

(** [main], from the bytes of the file to the exported catalog. *)
Definition discover (buf : list byte) : error + Catalog :=
  match parse_mz_header buf with
  | inl e => inl e
  | inr a => inr (export_json (analyze a))
  end.

(** ** Sample images *)

Module Samples.

(** A 32-byte header: two paragraphs, [CS:IP = cs:ip] given as the two
    bytes of each field, the other fields zero. *)
Definition header (cparhdr_lo cparhdr_hi ip_lo ip_hi cs_lo cs_hi : byte)
  : list byte :=
  [x4d; x5a; x00; x00; x00; x00; x00; x00; cparhdr_lo; cparhdr_hi;
   x00; x00; x00; x00; x00; x00; x00; x00; x00; x00;
   ip_lo; ip_hi; cs_lo; cs_hi; x00; x00; x00; x00; x00; x00; x00; x00].

(** The scenario of the specification: code at 32, entry 32, PUSH BP;
    MOV BP,SP at 32, RET at 40, and a near call at 50 back to 32. *)
Definition scenario : list byte :=
  header x02 x00 x20 x00 x00 x00 ++
  [x55; x8b; xec; x90; x90; x90; x90; x90; xc3; x90;   (* 32..41 *)
   x90; x90; x90; x90; x90; x90; x90; x90;             (* 42..49 *)
   xe8; xeb; xff;                                      (* 50: CALL 32 *)
   x90; x90; x90; x90].

(** A header that declares 0xFFFF paragraphs and CS:IP = FFFF:FFFF, in
    a 32-byte file. *)
Definition oversized : list byte := header xff xff xff xff xff xff.

(** Entry 32 starts with PUSH BP; MOV BP,SP and nothing calls it. *)
Definition prologue_only : list byte :=
  header x02 x00 x20 x00 x00 x00 ++ [x55; x8b; xec; x90; xc3; x90; x90; x90].

(** Entry 32 is a NOP; a prologue that nothing calls sits at 33. *)
Definition prologue_mid : list byte :=
  header x02 x00 x20 x00 x00 x00 ++ [x90; x55; x8b; xec; xc3; x90; x90; x90].

(** The code region ends in a bare PUSH BP at 33; the PUSH BP at 32 is
    followed by another PUSH BP. *)
Definition push_bp_last : list byte :=
  header x02 x00 x20 x00 x00 x00 ++ [x55; x55].

(** Eleven near calls, at 32, 35, .., 62, all to the function at 66. *)
Definition many_callers : list byte :=
  header x02 x00 x20 x00 x00 x00 ++
  [xe8; x1f; x00;  xe8; x1c; x00;  xe8; x19; x00;  xe8; x16; x00;
   xe8; x13; x00;  xe8; x10; x00;  xe8; x0d; x00;  xe8; x0a; x00;
   xe8; x07; x00;  xe8; x04; x00;  xe8; x01; x00;              (* 32..64 *)
   x90;                                                        (* 65 *)
   x55; x8b; xec; x90; xc3;                                    (* 66..70 *)
   x90; x90; x90].

(** The code of [many_callers] with the entry point moved to 66, the
    target of the eleven calls. *)
Definition entry_many_callers : list byte :=
  header x02 x00 x42 x00 x00 x00 ++ drop 32 many_callers.

(** Entry 32, then 65536 NOP bytes, then the first RET at 65568. *)
Definition far_ret : list byte :=
  header x02 x00 x20 x00 x00 x00 ++ repeat x90 (Z.to_nat 65536) ++ [xc3].

(** Entry 32 issues INT 10h, INT 21h and INT 10h again, then returns. *)
Definition video_dos : list byte :=
  header x02 x00 x20 x00 x00 x00 ++
  [xcd; x10; xcd; x21; xcd; x10; xc3; x90].

End Samples.

(** ** Vocabulary of the statements *)

(** The priority table as the specification words it: first match wins,
    over the set of tags [has]. *)
Definition priority_table (has : string → Prop) `{∀ t, Decision (has t)}
  : string :=
  if decide (has "0x10") then "video"
  else if decide (has "0x21") then "dos"
  else if decide (has "0x16") then "input"
  else if decide (has "0x08" ∨ has "0x1C") then "timer"
  else if decide (has "0x33") then "mouse"
  else if decide (has "0x80" ∨ has "0x81") then "sound"
  else "unknown".

(** Two records that agree on every field the merge step writes; the
    later passes only change [size_bytes], [subsystem] and [int_usage]. *)
Definition same_identity (f g : FunctionInfo) : Prop :=
  name f = name g ∧ entry_linear f = entry_linear g
  ∧ stack_frame_size f = stack_frame_size g ∧ callers f = callers g
  ∧ source_recording_id f = source_recording_id g ∧ notes f = notes g.

(** A pass over the table that keeps its keys and the identity of every
    record. *)
Definition table_frame (fs fs' : gmap Z FunctionInfo) : Prop :=
  dom fs' = dom fs
  ∧ ∀ k f', fs' !! k = Some f' → ∃ f, fs !! k = Some f ∧ same_identity f f'.

(** The record the merge step creates for a call target [k]. *)
Definition candidate_record (sources : gmap Z (list Z)) (note : string)
    (k : Z) : FunctionInfo :=
  new_FunctionInfo ("FUN_" +:+ Py.fmt_0X 5 k) (Py.hex k)
    (Py.hex <$> default [] (sources !! k)) note.

(** The synthetic entry record of step 1. *)
Definition entry_record (a : DOSExeAnalyzer) : FunctionInfo :=
  new_FunctionInfo "entry" (Py.hex (entry_point a)) [] "Program entry point".

(** The target the sweep decodes from a call opcode at index [k] of the
    code region: a near call needs its two operand bytes, a far call its
    four. *)
Definition call_target_at (cstart : Z) (code : list byte) (k : nat)
  : option Z :=
  match drop k code with
  | op :: lo :: hi :: rest =>
      if Py.b2z op =? CALL_NEAR_REL16 then
        Some (cstart + Z.of_nat k + 3 + Py.s16 lo hi)
      else if Py.b2z op =? CALL_FAR_PTR then
        match rest with
        | slo :: shi :: _ => Some (Py.u16 slo shi * 16 + Py.u16 lo hi)
        | _ => None
        end
      else None
  | _ => None
  end.

(** [s] is the file offset of a call opcode in the code region whose
    decoded target is [target]. *)
Definition is_call_site (cstart : Z) (code : list byte) (s target : Z) : Prop :=
  cstart ≤ s
  ∧ call_target_at cstart code (Z.to_nat (s - cstart)) = Some target.

(** The state of the sweep once it has passed index [bound]: every
    recorded source is a call site below [bound], each list of sources
    is in ascending order, the keys of the edge map are the targets, and
    every target is inside the file. *)
Definition call_inv (cstart data_len : Z) (code : list byte) (bound : Z)
    (st : call_state) : Prop :=
  (∀ target srcs, st.2 !! target = Some srcs →
     StronglySorted Z.lt srcs
     ∧ Forall (λ s, s < cstart + bound ∧ is_call_site cstart code s target)
         srcs)
  ∧ st.1 = dom st.2
  ∧ ∀ target, target ∈ st.1 → 0 ≤ target < data_len.

(** A bare PUSH BP at index [idx] of the code region passes the context
    check when the byte after it is one of the accepted followers, or
    when there is no byte after it. *)
Definition push_bp_accepted (code : list byte) (idx : nat) : Prop :=
  match code !! S idx with
  | Some next_byte => Py.b2z next_byte ∈ PUSH_BP_FOLLOWERS
  | None => True
  end.

(** Decides a closed proposition by evaluating its decision procedure. *)
Ltac by_compute := apply (bool_decide_unpack _); vm_compute; exact I.

(** [tag] prints the vector of an INT instruction (0xCD, vector) found
    at some index of the code region and attributed to the function at
    [key]. *)
Definition is_int_site (cstart : Z) (code : list byte)
    (fs : gmap Z FunctionInfo) (key : Z) (tag : string) : Prop :=
  ∃ (p : nat) (op vector : byte),
    code !! p = Some op ∧ Py.b2z op = 0xCD ∧ code !! S p = Some vector
    ∧ tag = Py.hex02 (Py.b2z vector)
    ∧ find_containing_function fs (cstart + Z.of_nat p) = Some key.

(** What every entry of the interrupt-usage dictionary satisfies while
    the sweep runs. *)
Definition int_inv (cstart : Z) (code : list byte) (fs : gmap Z FunctionInfo)
    (iu : gmap Z (list string)) : Prop :=
  ∀ key tags, iu !! key = Some tags →
    tags ≠ [] ∧ NoDup tags ∧ Forall (is_int_site cstart code fs key) tags.

(** The call the bounds check [0 <= target < len(self.data)] lets
    through, as a (target, source) pair. *)
Definition accepted_call (data_len target source : Z) : list (Z * Z) :=
  if (0 <=? target) && (target <? data_len) then [(target, source)] else [].

(** The calls the sweep of [find_call_targets] accepts, in the order it
    meets them; [call_loop] records exactly these
    (lemma [call_loop_events]). *)
Fixpoint call_events (cstart data_len n i : Z) (rest : list byte)
    {struct rest} : list (Z * Z) :=
  if i <? n - 3 then
    match rest with
    | [] => []
    | opcode :: tl =>
        if Py.b2z opcode =? CALL_NEAR_REL16 then
          match tl with
          | lo :: hi :: rest3 =>
              (if i + 3 <=? n then
                 accepted_call data_len (cstart + i + 3 + Py.s16 lo hi)
                   (cstart + i)
               else [])
              ++ call_events cstart data_len n (i + 3) rest3
          | _ => []
          end
        else if Py.b2z opcode =? CALL_FAR_PTR then
          match tl with
          | olo :: ohi :: slo :: shi :: rest5 =>
              (if i + 5 <=? n then
                 accepted_call data_len
                   (Py.u16 slo shi * 16 + Py.u16 olo ohi) (cstart + i)
               else [])
              ++ call_events cstart data_len n (i + 5) rest5
          | _ => []
          end
        else call_events cstart data_len n (i + 1) tl
    end
  else [].

Definition record_calls (st : call_state) (events : list (Z * Z)) : call_state :=
  foldl (λ st e, record_call e.1 e.2 st) st events.

(** The sources recorded for [target] among [events], in order. *)
Definition sources_of (target : Z) (events : list (Z * Z)) : list Z :=
  (filter (λ e, e.1 = target) events).*2.

(** The size [estimate_loop] gives the address [k] of the sorted list
    [keys]: the window runs to the address after [k], or to the end of
    the file. *)
Fixpoint size_for (buf : list byte) (keys : list Z) (k : Z) : Z :=
  match keys with
  | [] => 0
  | addr :: later =>
      if decide (k = addr)
      then estimate_size buf addr (default (Py.len buf) (head later))
      else size_for buf later k
  end.

(** What steps 5 and 6 of [analyze] do to the record at [k] of the
    merged table [fs2]. *)
Definition finish_record (a : DOSExeAnalyzer) (fs2 : gmap Z FunctionInfo)
    (k : Z) (f : FunctionInfo) : FunctionInfo :=
  set_size_bytes (size_for (data a) (sorted_keys fs2) k)
    match find_interrupt_handlers a fs2 !! k with
    | Some ints => set_int_usage ints (classify_subsystem k ints) f
    | None => f
    end.

(** ** [export_coverage_summary] and [coverage_report.main] *)

(** [counts[key] = counts.get(key, 0) + 1] *)
Definition tally (key : string) (counts : gmap string Z) : gmap string Z :=
  <[key := default 0 (counts !! key) + 1]> counts.

(** The numbers [export_coverage_summary] prints; the Markdown text
    around them is left out. *)
Record CoverageSummary := mkCoverageSummary {
  total_functions : Z;
  named_functions : Z;
  subsystems : gmap string Z;
  int_counts : gmap string Z
}.

(** The body of the loop over [self.functions.values()]. *)
Definition summary_step (f : FunctionInfo)
    (st : gmap string Z * gmap string Z) : gmap string Z * gmap string Z :=
  (tally (subsystem f) st.1, foldl (λ counts i, tally i counts) st.2 (int_usage f)).

Definition export_coverage_summary (a : DOSExeAnalyzer) : CoverageSummary :=
  let counts := map_fold (λ _ f st, summary_step f st) (∅, ∅) (functions a) in
  {| total_functions := Z.of_nat (size (functions a));
     named_functions :=
       map_fold (λ _ f n, if Py.str_startswith "FUN_" (name f) then n
                          else n + 1) 0 (functions a);
     subsystems := counts.1;
     int_counts := counts.2 |}.

(** The sum of the counts of a tally. *)
Definition tally_sum (counts : gmap string Z) : Z :=
  map_fold (λ _ n acc, n + acc) 0 counts.

(** The tallies of [coverage_report.main] over the ["functions"] array
    of a catalog read back from the exported document: the records by
    subsystem, the number of named functions, the interrupt counts. *)
Definition report_state : Type :=
  gmap string (list FunctionInfo) * Z * gmap string Z.

Definition report_step (st : report_state) (fn : FunctionInfo) : report_state :=
  let '(by_subsystem, named, int_usage_counts) := st in
  let subsystem :=
    if bool_decide (subsystem fn = "") then "unknown" else subsystem fn in
  let named' :=
    if negb (bool_decide (name fn = "")) &&
       negb (Py.str_startswith "FUN_" (Py.str_lower (name fn)))
    then named + 1 else named in
  (<[subsystem := default [] (by_subsystem !! subsystem) ++ [fn]]> by_subsystem,
   named',
   foldl (λ counts intr, tally intr counts) int_usage_counts (int_usage fn)).

Definition coverage_report (fns : list FunctionInfo) : report_state :=
  foldl report_step (∅, 0, ∅) fns.

(** "Total functions" and "Named functions" of the report. *)
Definition report_total (fns : list FunctionInfo) : Z := Py.len fns.
Definition report_named (fns : list FunctionInfo) : Z := (coverage_report fns).1.2.

(** * Properties *)

(** ** Facts about the Python primitives *)

Section PyFacts.

Lemma b2z_range (b : byte) : 0 ≤ Py.b2z b ≤ 255.
Proof.
  unfold Py.b2z. pose proof (Byte.to_N_bounded b) as H.
  split; [apply N2Z.is_nonneg|]. change 255 with (Z.of_N 255). lia.
Qed.

Lemma u16_range (lo hi : byte) : 0 ≤ Py.u16 lo hi ≤ 65535.
Proof.
  unfold Py.u16. pose proof (b2z_range lo). pose proof (b2z_range hi). lia.
Qed.

Lemma len_nonneg {A} (l : list A) : 0 ≤ Py.len l.
Proof. unfold Py.len. lia. Qed.

Lemma unpack_H_Some (buf : list byte) (off : nat) :
  (off + 2 ≤ length buf)%nat →
  ∃ lo hi, buf !! off = Some lo ∧ buf !! S off = Some hi
           ∧ Py.unpack_H buf off = Some (Py.u16 lo hi).
Proof.
  intros Hlen. unfold Py.unpack_H.
  destruct (drop off buf) as [|lo [|hi rest]] eqn:Hd.
  - apply (f_equal length) in Hd. rewrite length_drop in Hd. simpl in Hd. lia.
  - apply (f_equal length) in Hd. rewrite length_drop in Hd. simpl in Hd. lia.
  - exists lo, hi. repeat split.
    + rewrite <- (Nat.add_0_r off), <- lookup_drop, Hd. reflexivity.
    + replace (S off) with (off + 1)%nat by lia.
      rewrite <- lookup_drop, Hd. reflexivity.
Qed.

Lemma unpack_H_None (buf : list byte) (off : nat) :
  (length buf < off + 2)%nat → Py.unpack_H buf off = None.
Proof.
  intros Hlen. unfold Py.unpack_H.
  destruct (drop off buf) as [|lo [|hi rest]] eqn:Hd; try reflexivity.
  apply (f_equal length) in Hd. rewrite length_drop in Hd. simpl in Hd. lia.
Qed.

Lemma unpack_H_nonneg (buf : list byte) (off : nat) (v : Z) :
  Py.unpack_H buf off = Some v → 0 ≤ v ≤ 65535.
Proof.
  unfold Py.unpack_H. destruct (drop off buf) as [|lo [|hi rest]]; try discriminate.
  intros [= <-]. apply u16_range.
Qed.

(** Hexadecimal formatting is injective: distinct addresses print as
    distinct strings. *)

Lemma hex_digits_inj (d d' : Hexadecimal.uint) :
  Py.hex_digits d = Py.hex_digits d' → d = d'.
Proof.
  revert d'. induction d; intros d' H; destruct d'; simpl in H;
    try discriminate; try reflexivity;
    injection H as H'; f_equal; auto.
Qed.

Lemma hex_digits_no_sign (d : Hexadecimal.uint) (s : string) :
  Py.hex_digits d ≠ String "-"%char s.
Proof. destruct d; simpl; discriminate. Qed.

Lemma abs_digits_inj (n m : Z) :
  Py.abs_digits n = Py.abs_digits m → Z.abs n = Z.abs m.
Proof.
  unfold Py.abs_digits. intros H.
  apply hex_digits_inj, HexadecimalN.Unsigned.to_uint_inj in H. lia.
Qed.

Lemma fmt_X_inj (n m : Z) : Py.fmt_X n = Py.fmt_X m → n = m.
Proof.
  unfold Py.fmt_X, Py.sign.
  destruct (Z.ltb_spec n 0), (Z.ltb_spec m 0); simpl; intros Heq.
  - injection Heq as Heq. apply abs_digits_inj in Heq. lia.
  - symmetry in Heq. unfold Py.abs_digits in Heq.
    by apply hex_digits_no_sign in Heq.
  - unfold Py.abs_digits in Heq. by apply hex_digits_no_sign in Heq.
  - apply abs_digits_inj in Heq. lia.
Qed.

Lemma hex_inj (n m : Z) : Py.hex n = Py.hex m → n = m.
Proof. unfold Py.hex. simpl. intros [= H]. by apply fmt_X_inj. Qed.

End PyFacts.

(** ** Header parsing *)

Section Header.

Lemma parse_mz_header_inr (buf : list byte) (a : DOSExeAnalyzer) :
  parse_mz_header buf = inr a →
  data a = buf ∧ functions a = ∅ ∧ call_sources a = ∅
  ∧ Py.unpack_H buf 8 = Some (e_cparhdr a)
  ∧ Py.unpack_H buf 20 = Some (e_ip a)
  ∧ Py.unpack_H buf 22 = Some (e_cs a)
  ∧ code_start a = e_cparhdr a * 16
  ∧ entry_point a = e_cs a * 16 + e_ip a.
Proof.
  unfold parse_mz_header. case_bool_decide; [|discriminate].
  repeat (match goal with
          | |- context [Py.unpack_H buf ?o] =>
              destruct (Py.unpack_H buf o) eqn:?; simpl; [|discriminate]
          end).
  intros [= <-]. simpl. repeat split; reflexivity.
Qed.

Lemma parse_mz_header_bounds (buf : list byte) (a : DOSExeAnalyzer) :
  parse_mz_header buf = inr a → 0 ≤ code_start a ∧ 0 ≤ entry_point a.
Proof.
  intros H. apply parse_mz_header_inr in H
    as (_ & _ & _ & H8 & H20 & H22 & -> & ->).
  apply unpack_H_nonneg in H8, H20, H22. lia.
Qed.

Lemma parse_mz_header_ok (buf : list byte) :
  Py.slice buf 0 2 = MZ_magic → (26 ≤ length buf)%nat →
  ∃ a, parse_mz_header buf = inr a.
Proof.
  intros Hm Hlen. unfold parse_mz_header. rewrite bool_decide_eq_true_2 by done.
  repeat (match goal with
          | |- context [Py.unpack_H buf ?o] =>
              let H := fresh in
              destruct (unpack_H_Some buf o) as (? & ? & _ & _ & H);
              [lia|]; rewrite H; clear H; simpl
          end).
  eauto.
Qed.

Lemma parse_mz_header_short (buf : list byte) :
  Py.slice buf 0 2 = MZ_magic → (length buf < 26)%nat →
  parse_mz_header buf = inl StructError.
Proof.
  intros Hm Hlen. unfold parse_mz_header. rewrite bool_decide_eq_true_2 by done.
  rewrite (unpack_H_None buf 24) by lia.
  repeat (match goal with
          | |- context [Py.unpack_H buf ?o] =>
              destruct (Py.unpack_H buf o); simpl; [|reflexivity]
          end).
  reflexivity.
Qed.

End Header.

(** ** Subsystem classification *)

Lemma classify_subsystem_table (addr : Z) (l : list string) :
  classify_subsystem addr l = priority_table (λ t, t ∈ l).
Proof.
  unfold classify_subsystem, priority_table. cbv beta.
  repeat lazymatch goal with
    | |- context [bool_decide (?t ∈ l)] =>
        destruct (decide (t ∈ l));
        [ rewrite !(bool_decide_eq_true_2 (t ∈ l)) by assumption
        | rewrite !(bool_decide_eq_false_2 (t ∈ l)) by assumption ];
        simpl;
        repeat first [ rewrite decide_True by tauto
                     | rewrite decide_False by tauto ];
        try reflexivity
    end.
Qed.

(** ** Sorted keys and the exported array *)

Section ExportedArray.

Lemma StronglySorted_le_lt (l : list Z) :
  StronglySorted Z.le l → NoDup l → StronglySorted Z.lt l.
Proof.
  induction 1 as [|x l Hs IH Hall]; intros Hnd; [constructor|].
  apply NoDup_cons in Hnd as [Hx Hnd]. constructor; [auto|].
  rewrite Forall_forall in *. intros y Hy.
  specialize (Hall y Hy). assert (x ≠ y) by (intros ->; done). lia.
Qed.

Context {A : Type}.
Implicit Types fs : gmap Z A.

Lemma sorted_keys_perm fs : sorted_keys fs ≡ₚ elements (dom fs).
Proof. apply merge_sort_Permutation. Qed.

Lemma elem_of_sorted_keys fs k : k ∈ sorted_keys fs ↔ is_Some (fs !! k).
Proof. rewrite sorted_keys_perm, elem_of_elements. apply elem_of_dom. Qed.

Lemma NoDup_sorted_keys fs : NoDup (sorted_keys fs).
Proof. rewrite sorted_keys_perm. apply NoDup_elements. Qed.

Lemma sorted_keys_strict fs : StronglySorted Z.lt (sorted_keys fs).
Proof.
  apply StronglySorted_le_lt; [|apply NoDup_sorted_keys].
  apply (StronglySorted_merge_sort Z.le).
Qed.

Lemma sorted_keys_dom {B} fs (fs' : gmap Z B) :
  dom fs = dom fs' → sorted_keys fs = sorted_keys fs'.
Proof. unfold sorted_keys. by intros ->. Qed.

End ExportedArray.

Lemma omap_lookup_total {A B} (f : A → option B) (l : list A) (i : nat) :
  (∀ x, x ∈ l → is_Some (f x)) → omap f l !! i = l !! i ≫= f.
Proof.
  revert i. induction l as [|x l IH]; intros i Hf; [done|].
  destruct (Hf x) as [y Hy]; [left|]. simpl. rewrite Hy.
  destruct i as [|i]; simpl; [done|].
  apply IH. intros z Hz. apply Hf. by right.
Qed.

Lemma export_functions_lookup (fs : gmap Z FunctionInfo) (i : nat) :
  export_functions fs !! i
  = sorted_keys fs !! i ≫= λ addr, export_record <$> fs !! addr.
Proof.
  unfold export_functions. apply omap_lookup_total.
  intros k [f Hf]%elem_of_sorted_keys. rewrite Hf. by eexists.
Qed.

Lemma elem_of_export_functions (fs : gmap Z FunctionInfo) (r : FunctionInfo) :
  r ∈ export_functions fs ↔ ∃ addr f, fs !! addr = Some f ∧ r = export_record f.
Proof.
  unfold export_functions. rewrite list_elem_of_omap. split.
  - intros (addr & _ & Hr). destruct (fs !! addr) as [f|] eqn:Hf; [|done].
    injection Hr as <-. eauto.
  - intros (addr & f & Hf & ->). exists addr. split.
    + apply elem_of_sorted_keys. by eexists.
    + by rewrite Hf.
Qed.

Lemma export_functions_entry_linear (fs : gmap Z FunctionInfo) :
  (∀ k f, fs !! k = Some f → entry_linear f = Py.hex k) →
  entry_linear <$> export_functions fs = Py.hex <$> sorted_keys fs.
Proof.
  intros Hel. apply list_eq. intros i.
  rewrite !list_lookup_fmap, export_functions_lookup.
  destruct (sorted_keys fs !! i) as [k|] eqn:Hk; simpl; [|done].
  assert (is_Some (fs !! k)) as [f Hf].
  { apply elem_of_sorted_keys. eapply list_elem_of_lookup_2, Hk. }
  rewrite Hf. simpl. f_equal. by apply Hel.
Qed.

(** ** Passes that keep the identity of the records *)

Section Frame.

Lemma same_identity_refl f : same_identity f f.
Proof. by repeat split. Qed.

Lemma same_identity_trans f g h :
  same_identity f g → same_identity g h → same_identity f h.
Proof. unfold same_identity. intuition congruence. Qed.

Lemma table_frame_refl fs : table_frame fs fs.
Proof. split; [done|]. intros k f' ?. exists f'. eauto using same_identity_refl. Qed.

Lemma table_frame_trans fs1 fs2 fs3 :
  table_frame fs1 fs2 → table_frame fs2 fs3 → table_frame fs1 fs3.
Proof.
  intros [Hd1 H1] [Hd2 H2]. split; [congruence|].
  intros k f3 (f2 & Hf2 & ?)%H2. apply H1 in Hf2 as (f1 & ? & ?).
  eauto using same_identity_trans.
Qed.

Lemma table_frame_alter (g : FunctionInfo → FunctionInfo) k fs :
  (∀ f, same_identity f (g f)) → table_frame fs (alter g k fs).
Proof.
  intros Hg. split; [apply dom_alter_L|].
  intros j f'. rewrite lookup_alter. case_decide as Hj.
  - subst j. destruct (fs !! k) as [f|]; simpl; [|done].
    intros [= <-]. eauto.
  - intros ?. eauto using same_identity_refl.
Qed.

Lemma table_frame_lookup fs fs' k f :
  table_frame fs fs' → fs !! k = Some f →
  ∃ f', fs' !! k = Some f' ∧ same_identity f f'.
Proof.
  intros [Hd H] Hf.
  assert (is_Some (fs' !! k)) as [f' Hf'].
  { apply elem_of_dom. rewrite Hd. apply elem_of_dom. by eexists. }
  exists f'. split; [done|]. apply H in Hf' as (f0 & ? & ?). congruence.
Qed.

Lemma apply_int_usage_frame fs iu :
  table_frame fs (map_fold apply_int_usage fs iu).
Proof.
  apply (map_fold_weak_ind (λ fs' _, table_frame fs fs')).
  - apply table_frame_refl.
  - intros addr ints m fs' _ IH. unfold apply_int_usage.
    case_bool_decide; [|done].
    eapply table_frame_trans; [exact IH|].
    apply table_frame_alter. intros f. by repeat split.
Qed.

Lemma estimate_loop_frame buf l fs : table_frame fs (estimate_loop buf l fs).
Proof.
  revert fs. induction l as [|addr l IH]; intros fs; simpl.
  - apply table_frame_refl.
  - eapply table_frame_trans; [|apply IH].
    apply table_frame_alter. intros f. by repeat split.
Qed.

Lemma estimate_loop_other buf l fs k :
  k ∉ l → estimate_loop buf l fs !! k = fs !! k.
Proof.
  revert fs. induction l as [|addr l IH]; intros fs Hk; simpl; [done|].
  apply not_elem_of_cons in Hk as [? ?].
  rewrite IH by done. by rewrite lookup_alter_ne.
Qed.

Lemma estimate_loop_size buf l1 addr l2 fs :
  addr ∉ l1 → addr ∉ l2 →
  estimate_loop buf (l1 ++ addr :: l2) fs !! addr
  = set_size_bytes (estimate_size buf addr (default (Py.len buf) (head l2)))
      <$> fs !! addr.
Proof.
  revert fs. induction l1 as [|x l1 IH]; intros fs H1 H2; simpl.
  - rewrite estimate_loop_other by done. rewrite lookup_alter_eq.
    by destruct l2.
  - apply not_elem_of_cons in H1 as [? ?].
    rewrite IH by done. by rewrite lookup_alter_ne.
Qed.

End Frame.

(** ** The merge step *)

Section Merge.

Variables (cstart : Z) (sources : gmap Z (list Z)) (note : string).

Lemma add_candidate_keeps addr fs k f :
  fs !! k = Some f → add_candidate cstart sources note addr fs !! k = Some f.
Proof.
  intros Hk. unfold add_candidate.
  destruct (bool_decide (addr ∉ dom fs) && (cstart <=? addr)) eqn:Hc; [|done].
  apply andb_true_iff in Hc as [Hd%bool_decide_eq_true _].
  rewrite lookup_insert_ne; [done|]. intros ->.
  apply Hd, elem_of_dom. by eexists.
Qed.

Lemma add_candidate_lookup addr fs k :
  add_candidate cstart sources note addr fs !! k
  = match fs !! k with
    | Some f => Some f
    | None => if decide (k = addr ∧ cstart ≤ k)
              then Some (candidate_record sources note k) else None
    end.
Proof.
  destruct (fs !! k) as [f|] eqn:Hk; [by apply add_candidate_keeps|].
  unfold add_candidate.
  destruct (decide (k = addr ∧ cstart ≤ k)) as [[-> Hle]|Hn].
  - rewrite bool_decide_eq_true_2 by (by rewrite not_elem_of_dom).
    apply Z.leb_le in Hle. rewrite Hle. simpl. by rewrite lookup_insert_eq.
  - destruct (bool_decide (addr ∉ dom fs) && (cstart <=? addr)) eqn:Hc; [|done].
    apply andb_true_iff in Hc as [_ Hle%Z.leb_le].
    rewrite lookup_insert_ne; [done|]. intros ->. tauto.
Qed.

Lemma fold_add_candidate_lookup (l : list Z) fs k :
  foldr (add_candidate cstart sources note) fs l !! k
  = match fs !! k with
    | Some f => Some f
    | None => if decide (k ∈ l ∧ cstart ≤ k)
              then Some (candidate_record sources note k) else None
    end.
Proof.
  induction l as [|x l IH]; cbn [foldr].
  - destruct (fs !! k); [done|]. rewrite decide_False; [done|].
    rewrite elem_of_nil. tauto.
  - rewrite add_candidate_lookup, IH. destruct (fs !! k); [done|].
    destruct (decide (k ∈ l ∧ cstart ≤ k)) as [[? ?]|Hn].
    + rewrite decide_True; [done|]. split; [by right|done].
    + destruct (decide (k = x ∧ cstart ≤ k)) as [[-> ?]|Hn'].
      * rewrite decide_True; [done|]. split; [by left|done].
      * rewrite decide_False; [done|]. rewrite elem_of_cons. tauto.
Qed.

Lemma set_fold_add_candidate_lookup (X : gset Z) fs k :
  set_fold (add_candidate cstart sources note) fs X !! k
  = match fs !! k with
    | Some f => Some f
    | None => if decide (k ∈ X ∧ cstart ≤ k)
              then Some (candidate_record sources note k) else None
    end.
Proof.
  unfold set_fold, compose. rewrite fold_add_candidate_lookup.
  destruct (fs !! k); [done|].
  destruct (decide (k ∈ X ∧ cstart ≤ k)) as [[? ?]|Hn].
  - rewrite decide_True; [done|]. by rewrite elem_of_elements.
  - rewrite decide_False; [done|]. by rewrite elem_of_elements.
Qed.

End Merge.

(** The table after steps 1 to 4, for an analyzer fresh from the
    constructor: the entry record, then one record per call target in
    the code section; nothing else. *)
Lemma merge_candidates_lookup (a : DOSExeAnalyzer) (k : Z) :
  functions a = ∅ →
  (merge_candidates a).1 !! k
  = if decide (k = entry_point a) then Some (entry_record a)
    else if decide (k ∈ (find_call_targets a).1 ∧ code_start a ≤ k)
    then Some (candidate_record (find_call_targets a).2
                 (if decide (k ∈ find_prologue_patterns a)
                  then "auto-discovered (prologue+call)"
                  else "auto-discovered (call target)") k)
    else None.
Proof.
  intros Hfs. unfold merge_candidates.
  destruct (find_call_targets a) as [targets src]. simpl.
  rewrite !set_fold_add_candidate_lookup, Hfs.
  fold (entry_record a).
  destruct (decide (k = entry_point a)) as [->|Hne].
  { by rewrite lookup_insert_eq. }
  rewrite lookup_insert_ne, lookup_empty by done.
  destruct (decide (k ∈ find_prologue_patterns a)) as [Hp|Hp].
  - destruct (decide (k ∈ targets ∧ code_start a ≤ k)) as [[? ?]|Hn].
    + rewrite decide_True; [done|]. by rewrite elem_of_intersection.
    + rewrite decide_False by (rewrite elem_of_intersection; tauto).
      rewrite decide_False; [done|]. rewrite elem_of_difference. tauto.
  - rewrite decide_False by (rewrite elem_of_intersection; tauto).
    destruct (decide (k ∈ targets ∧ code_start a ≤ k)) as [[? ?]|Hn].
    + rewrite decide_True; [done|].
      rewrite elem_of_difference, elem_of_intersection. tauto.
    + rewrite decide_False; [done|]. rewrite elem_of_difference. tauto.
Qed.

Lemma merge_candidates_sources (a : DOSExeAnalyzer) :
  (merge_candidates a).2 = (find_call_targets a).2.
Proof. unfold merge_candidates. by destruct (find_call_targets a). Qed.

(** What [analyze] leaves in the table, relative to the merge step. *)
Lemma analyze_frame (a : DOSExeAnalyzer) :
  table_frame (merge_candidates a).1 (functions (analyze a)).
Proof.
  unfold analyze. destruct (merge_candidates a) as [fs2 src]. simpl.
  eapply table_frame_trans; [apply apply_int_usage_frame|].
  apply estimate_loop_frame.
Qed.

Lemma analyze_call_sources (a : DOSExeAnalyzer) :
  call_sources (analyze a) = (find_call_targets a).2.
Proof.
  rewrite <- merge_candidates_sources. unfold analyze.
  by destruct (merge_candidates a).
Qed.

Lemma analyze_fields (a : DOSExeAnalyzer) :
  data (analyze a) = data a ∧ code_start (analyze a) = code_start a
  ∧ entry_point (analyze a) = entry_point a.
Proof. unfold analyze. by destruct (merge_candidates a). Qed.

(** Every record of the final table is the entry record or the record
    of a call target, up to the fields the later passes write. *)
Lemma analyze_lookup (a : DOSExeAnalyzer) (k : Z) (f : FunctionInfo) :
  functions a = ∅ →
  functions (analyze a) !! k = Some f →
  (k = entry_point a ∧ same_identity (entry_record a) f)
  ∨ (k ≠ entry_point a ∧ k ∈ (find_call_targets a).1 ∧ code_start a ≤ k
     ∧ ∃ note, same_identity
                 (candidate_record (find_call_targets a).2 note k) f).
Proof.
  intros Hfs Hk. destruct (analyze_frame a) as [_ Hfr].
  apply Hfr in Hk as (f0 & Hf0 & Hid).
  rewrite merge_candidates_lookup in Hf0 by done.
  destruct (decide (k = entry_point a)) as [->|Hne].
  { injection Hf0 as <-. by left. }
  destruct (decide (k ∈ (find_call_targets a).1 ∧ code_start a ≤ k))
    as [[? ?]|]; [|done].
  injection Hf0 as <-. right. eauto 6.
Qed.

Lemma analyze_entry (a : DOSExeAnalyzer) :
  functions a = ∅ →
  ∃ f, functions (analyze a) !! entry_point a = Some f
       ∧ same_identity (entry_record a) f.
Proof.
  intros Hfs. eapply table_frame_lookup; [apply analyze_frame|].
  rewrite merge_candidates_lookup by done. by rewrite decide_True.
Qed.

Lemma analyze_entry_linear (a : DOSExeAnalyzer) (k : Z) (f : FunctionInfo) :
  functions a = ∅ →
  functions (analyze a) !! k = Some f → entry_linear f = Py.hex k.
Proof.
  intros Hfs Hk. apply analyze_lookup in Hk; [|done].
  destruct Hk as [[-> Hid]|(_ & _ & _ & note & Hid)];
    destruct Hid as (_ & <- & _); reflexivity.
Qed.

(** ** The call sweep *)

Section CallSweep.

Variables (cstart data_len : Z) (code : list byte).

Lemma call_inv_mono i j st :
  i ≤ j → call_inv cstart data_len code i st → call_inv cstart data_len code j st.
Proof.
  intros Hij (Hs & Hd & Hb). split; [|done].
  intros target srcs Hl. destruct (Hs _ _ Hl) as [Hsorted Hall].
  split; [done|]. eapply Forall_impl; [exact Hall|].
  simpl. intros s [? ?]. split; [lia|done].
Qed.

Lemma record_call_inv i j target st :
  0 ≤ i < j → 0 ≤ target < data_len →
  call_target_at cstart code (Z.to_nat i) = Some target →
  call_inv cstart data_len code i st →
  call_inv cstart data_len code j (record_call target (cstart + i) st).
Proof.
  intros Hij Ht Hc (Hs & Hd & Hb). destruct st as [targets src].
  simpl in *. subst targets.
  set (src1 := if bool_decide (target ∉ dom src) then <[target:=[]]> src else src).
  assert (Hsrc1 : default [] (src1 !! target) = default [] (src !! target)).
  { unfold src1. case_bool_decide as Hin; [|done].
    rewrite lookup_insert_eq. apply not_elem_of_dom in Hin. by rewrite Hin. }
  assert (Hdom1 : dom src1 = {[target]} ∪ dom src).
  { unfold src1. case_bool_decide as Hin; [by rewrite dom_insert_L|].
    symmetry. by apply subseteq_union_1_L, singleton_subseteq_l. }
  rewrite Hsrc1. split; [|split]; simpl.
  - intros t srcs. rewrite lookup_insert. case_decide as Heq.
    + subst t. intros [= <-].
      assert (Hold : StronglySorted Z.lt (default [] (src !! target))
                ∧ Forall (λ s, s < cstart + i
                               ∧ is_call_site cstart code s target)
                    (default [] (src !! target))).
      { destruct (src !! target) as [l|] eqn:Hl; simpl; [by eapply Hs|].
        split; constructor. }
      destruct Hold as [Hsorted Hall]. split.
      * apply StronglySorted_app_2; [|done|repeat constructor].
        intros x1 x2 Hx1 ->%list_elem_of_singleton.
        rewrite Forall_forall in Hall. apply Hall in Hx1. lia.
      * apply Forall_app. split.
        -- eapply Forall_impl; [exact Hall|]. simpl. intros s [? ?].
           split; [lia|done].
        -- constructor; [|constructor]. split; [lia|]. split; [lia|].
           by replace (cstart + i - cstart) with i by lia.
    + intros Hl.
      assert (src !! t = Some srcs) as Hl'.
      { unfold src1 in Hl. case_bool_decide; [|done].
        by rewrite lookup_insert_ne in Hl. }
      destruct (Hs _ _ Hl') as [? Hall]. split; [done|].
      eapply Forall_impl; [exact Hall|]. simpl. intros s [? ?].
      split; [lia|done].
  - by rewrite dom_insert_L, Hdom1, (assoc_L (∪)), (idemp_L (∪)).
  - intros t [->%elem_of_singleton|Hin]%elem_of_union; [done|].
    by apply Hb.
Qed.

Lemma accept_call_inv i j target st :
  0 ≤ i < j →
  call_target_at cstart code (Z.to_nat i) = Some target →
  call_inv cstart data_len code i st →
  call_inv cstart data_len code j (accept_call data_len target (cstart + i) st).
Proof.
  intros Hij Hc Hinv. unfold accept_call.
  destruct ((0 <=? target) && (target <? data_len)) eqn:Hb.
  - apply andb_true_iff in Hb as [?%Z.leb_le ?%Z.ltb_lt].
    by apply record_call_inv.
  - eapply call_inv_mono; [|exact Hinv]. lia.
Qed.

Lemma drop_Z_add (i : Z) (k : nat) (pre rest : list byte) :
  0 ≤ i → length pre = k → drop (Z.to_nat i) code = pre ++ rest →
  drop (Z.to_nat (i + Z.of_nat k)) code = rest.
Proof.
  intros Hi Hk Hd.
  replace (Z.to_nat (i + Z.of_nat k)) with (Z.to_nat i + k)%nat by lia.
  rewrite <- drop_drop, Hd, <- Hk. by rewrite drop_app_length.
Qed.

(** Inside the loops the suffix [code[i:]] is as long as the loop
    condition says: the branches of [call_loop] and [int_loop] for a
    missing opcode or a missing near-call operand are never taken. *)
Lemma loop_suffix_length (i k : Z) (rest : list byte) :
  0 ≤ i → drop (Z.to_nat i) code = rest → i < Py.len code - k →
  k < Py.len rest.
Proof.
  intros Hi <- Hlt. unfold Py.len in *. rewrite length_drop. lia.
Qed.

Lemma call_loop_inv (m : nat) :
  ∀ rest i st,
    (length rest ≤ m)%nat → 0 ≤ i → drop (Z.to_nat i) code = rest →
    call_inv cstart data_len code i st →
    ∃ j, call_inv cstart data_len code j
           (call_loop cstart data_len (Py.len code) i rest st).
Proof.
  induction m as [|m IH]; intros rest i st Hm Hi Hd Hinv.
  { destruct rest; [|simpl in Hm; lia]. simpl. destruct (i <? _); eauto. }
  destruct rest as [|op tl]; [simpl; destruct (i <? _); eauto|].
  cbn [call_loop]. destruct (i <? Py.len code - 3); [|eauto].
  simpl in Hm.
  destruct (Py.b2z op =? CALL_NEAR_REL16) eqn:Hnear.
  { destruct tl as [|lo [|hi rest3]]; eauto.
    apply IH.
    - simpl in *. lia.
    - lia.
    - by apply (drop_Z_add i 3 [op; lo; hi]).
    - assert (call_target_at cstart code (Z.to_nat i)
              = Some (cstart + i + 3 + Py.s16 lo hi)) as Hc.
      { unfold call_target_at. rewrite Hd, Hnear. do 3 f_equal. lia. }
      destruct (i + 3 <=? Py.len code).
      + apply accept_call_inv; [lia|done..].
      + eapply call_inv_mono; [|exact Hinv]. lia. }
  destruct (Py.b2z op =? CALL_FAR_PTR) eqn:Hfar.
  { destruct tl as [|olo [|ohi [|slo [|shi rest5]]]]; eauto.
    apply IH.
    - simpl in *. lia.
    - lia.
    - by apply (drop_Z_add i 5 [op; olo; ohi; slo; shi]).
    - assert (call_target_at cstart code (Z.to_nat i)
              = Some (Py.u16 slo shi * 16 + Py.u16 olo ohi)) as Hc.
      { unfold call_target_at. by rewrite Hd, Hnear, Hfar. }
      destruct (i + 5 <=? Py.len code).
      + apply accept_call_inv; [lia|done..].
      + eapply call_inv_mono; [|exact Hinv]. lia. }
  assert (∃ j, call_inv cstart data_len code j
                 (call_loop cstart data_len (Py.len code) (i + 1) tl st)).
  { apply IH; [lia|lia|by apply (drop_Z_add i 1 [op])|].
    eapply call_inv_mono; [|exact Hinv]. lia. }
  by destruct (Py.b2z op =? CALL_RM16).
Qed.

End CallSweep.

(** The result of [find_call_targets] on a fresh analyzer. *)
Lemma find_call_targets_inv (a : DOSExeAnalyzer) :
  call_sources a = ∅ →
  ∃ j, call_inv (code_start a) (Py.len (data a))
         (Py.slice_from (data a) (code_start a)) j (find_call_targets a).
Proof.
  intros Hcs. unfold find_call_targets.
  eapply call_loop_inv; [done|done|done|].
  rewrite Hcs. split; [|split]; simpl.
  - intros ??. by rewrite lookup_empty.
  - by rewrite dom_empty_L.
  - intros ? []%not_elem_of_empty.
Qed.

(** ** The prologue scan *)

Section PrologueScan.

Variables (cstart : Z) (code pattern : list byte).
Hypothesis pattern_nonempty : pattern ≠ [].

Lemma starts_with_nil : Py.starts_with pattern [] = false.
Proof using pattern_nonempty. by destruct pattern. Qed.

Lemma starts_with_drop_ge (k : nat) :
  (length code ≤ k)%nat → Py.starts_with pattern (drop k code) = false.
Proof using pattern_nonempty.
  intros Hk. rewrite drop_ge by done. apply starts_with_nil.
Qed.

(** [find_in] returns the first index of the suffix where the pattern
    starts, shifted by [idx], or [-1]. *)
Lemma find_in_spec (rest : list byte) (idx : Z) :
  (Py.find_in pattern rest idx = -1
   ∧ ∀ k : nat, Py.starts_with pattern (drop k rest) = false)
  ∨ (∃ k : nat,
       Py.find_in pattern rest idx = idx + Z.of_nat k
       ∧ (k < length rest)%nat
       ∧ Py.starts_with pattern (drop k rest) = true
       ∧ ∀ j : nat, (j < k)%nat → Py.starts_with pattern (drop j rest) = false).
Proof using pattern_nonempty.
  revert idx. induction rest as [|b tl IH]; intros idx; simpl.
  - left. rewrite starts_with_nil. split; [done|].
    intros k. rewrite drop_nil. apply starts_with_nil.
  - destruct (Py.starts_with pattern (b :: tl)) eqn:Hs.
    + right. exists 0%nat. simpl. repeat split; [lia|lia|done|lia].
    + destruct (IH (idx + 1)) as [[Hr Hno]|(k & Hr & Hk & Hm & Hno)].
      * left. split; [done|]. intros [|k]; simpl; [done|apply Hno].
      * right. exists (S k). simpl. repeat split; [lia|lia|done|].
        intros [|j] Hj; simpl; [done|]. apply Hno. lia.
Qed.

Lemma find_spec (pos : Z) :
  0 ≤ pos →
  (Py.find code pattern pos = -1
   ∧ ∀ k : nat, pos ≤ Z.of_nat k → Py.starts_with pattern (drop k code) = false)
  ∨ (∃ k : nat,
       Py.find code pattern pos = Z.of_nat k
       ∧ pos ≤ Z.of_nat k < Py.len code
       ∧ Py.starts_with pattern (drop k code) = true
       ∧ ∀ j : nat, pos ≤ Z.of_nat j < Z.of_nat k →
                    Py.starts_with pattern (drop j code) = false).
Proof using pattern_nonempty.
  intros Hpos. unfold Py.find, Py.len.
  destruct (Z.ltb_spec (Z.of_nat (length code)) pos) as [Hlt|Hle].
  { left. split; [done|]. intros k Hk. apply starts_with_drop_ge. lia. }
  destruct (find_in_spec (drop (Z.to_nat pos) code) pos)
    as [[Hr Hno]|(k & Hr & Hk & Hm & Hno)].
  - left. split; [done|]. intros k Hk.
    specialize (Hno (k - Z.to_nat pos)%nat). rewrite drop_drop in Hno.
    by replace (Z.to_nat pos + (k - Z.to_nat pos))%nat with k in Hno by lia.
  - right. exists (Z.to_nat pos + k)%nat.
    rewrite length_drop in Hk. rewrite drop_drop in Hm.
    repeat split; [lia|lia|lia|done|].
    intros j Hj. specialize (Hno (j - Z.to_nat pos)%nat).
    rewrite drop_drop in Hno.
    replace (Z.to_nat pos + (j - Z.to_nat pos))%nat with j in Hno by lia.
    apply Hno. lia.
Qed.

(** The loop breaks within the fuel it is given, and collects exactly
    the matches from [pos] on that pass the context check. *)
Lemma prologue_loop_spec (fuel : nat) :
  ∀ pos acc,
    0 ≤ pos ≤ Py.len code → Py.len code - pos < Z.of_nat fuel →
    ∃ s, prologue_loop fuel cstart code pattern (pos, acc) = Some s
         ∧ ∀ x, x ∈ s ↔
             x ∈ acc
             ∨ ∃ k : nat, pos ≤ Z.of_nat k ∧ x = cstart + Z.of_nat k
                 ∧ Py.starts_with pattern (drop k code) = true
                 ∧ push_bp_rejected code pattern (Z.of_nat k) = false.
Proof using pattern_nonempty.
  induction fuel as [|fuel IH]; intros pos acc [Hpos Hle] Hfuel; [lia|].
  cbn [prologue_loop]. unfold prologue_step.
  destruct (find_spec pos Hpos) as [[Hr Hno]|(k & Hr & Hk & Hm & Hno)];
    rewrite Hr.
  - simpl. exists acc. split; [done|]. intros x. split; [by left|].
    intros [?|(k & Hk & _ & Hm & _)]; [done|].
    rewrite Hno in Hm by done. discriminate.
  - destruct (Z.eqb_spec (Z.of_nat k) (-1)) as [?|_]; [lia|].
    set (acc' := if push_bp_rejected code pattern (Z.of_nat k) then acc
                 else {[cstart + Z.of_nat k]} ∪ acc).
    destruct (IH (Z.of_nat k + 1) acc') as (s & Hs & Hin); [lia|lia|].
    exists s. split.
    { unfold acc' in Hs.
      by destruct (push_bp_rejected code pattern (Z.of_nat k)). }
    intros x. rewrite Hin. split.
    + intros [Hacc|(j & Hj & -> & Hmj & Hrj)].
      * unfold acc' in Hacc.
        destruct (push_bp_rejected code pattern (Z.of_nat k)) eqn:Hrej;
          [by left|].
        apply elem_of_union in Hacc as [->%elem_of_singleton|?]; [|by left].
        right. exists k. repeat split; [lia|done..].
      * right. exists j. repeat split; [lia|done..].
    + intros [Hacc|(j & Hj & -> & Hmj & Hrj)].
      * left. unfold acc'.
        destruct (push_bp_rejected code pattern (Z.of_nat k)); [done|].
        apply elem_of_union. by right.
      * destruct (decide (j = k)) as [->|Hne].
        -- left. unfold acc'. rewrite Hrj.
           apply elem_of_union. left. by apply elem_of_singleton.
        -- right. exists j. repeat split; [|done..].
           destruct (Z.lt_ge_cases (Z.of_nat j) (Z.of_nat k)); [|lia].
           rewrite Hno in Hmj by lia. discriminate.
Qed.

Lemma prologue_loop_breaks (acc : gset Z) :
  is_Some (prologue_loop (S (length code)) cstart code pattern (0, acc)).
Proof using pattern_nonempty.
  destruct (prologue_loop_spec (S (length code)) 0 acc) as (s & Hs & _);
    [unfold Py.len; lia|unfold Py.len; lia|by eexists].
Qed.

Lemma elem_of_scan_pattern (acc : gset Z) (x : Z) :
  x ∈ scan_pattern cstart code acc pattern ↔
    x ∈ acc
    ∨ ∃ k : nat, x = cstart + Z.of_nat k
        ∧ Py.starts_with pattern (drop k code) = true
        ∧ push_bp_rejected code pattern (Z.of_nat k) = false.
Proof using pattern_nonempty.
  unfold scan_pattern.
  destruct (prologue_loop_spec (S (length code)) 0 acc) as (s & Hs & Hin);
    [unfold Py.len; lia|unfold Py.len; lia|].
  rewrite Hs. simpl. rewrite Hin. split.
  - intros [?|(k & _ & ? & ? & ?)]; [by left|right; eauto].
  - intros [?|(k & ? & ? & ?)]; [by left|].
    right. exists k. repeat split; [lia|done..].
Qed.

End PrologueScan.

(** The set [find_prologue_patterns] returns: the offsets where one of
    the five patterns starts and passes the context check.  No pattern
    is empty, so none of the five scans runs out of fuel. *)
Lemma elem_of_find_prologue_patterns (a : DOSExeAnalyzer) (x : Z) :
  let code := Py.slice_from (data a) (code_start a) in
  x ∈ find_prologue_patterns a ↔
    ∃ pattern (k : nat),
      pattern ∈ PROLOGUE_PATTERNS ∧ x = code_start a + Z.of_nat k
      ∧ Py.starts_with pattern (drop k code) = true
      ∧ push_bp_rejected code pattern (Z.of_nat k) = false.
Proof.
  intros code. unfold find_prologue_patterns. fold code.
  unfold PROLOGUE_PATTERNS. cbn [foldl].
  rewrite !elem_of_scan_pattern by done. split.
  - intros [[[[[[]%not_elem_of_empty|H]|H]|H]|H]|H];
      destruct H as (k & ? & ? & ?); eexists _, k;
      (split; [|done]); rewrite !elem_of_cons; tauto.
  - intros (pattern & k & Hin & ? & ? & ?).
    rewrite !elem_of_cons, elem_of_nil in Hin.
    destruct Hin as [->|[->|[->|[->|[->|[]]]]]]; eauto 10.
Qed.

(** ** From the file to the catalog *)

Lemma discover_inr (buf : list byte) (c : Catalog) :
  discover buf = inr c →
  ∃ a, parse_mz_header buf = inr a ∧ c = export_json (analyze a).
Proof.
  unfold discover. destruct (parse_mz_header buf) as [e|a]; [done|].
  intros [= <-]. eauto.
Qed.

Lemma discover_of_parse (buf : list byte) (a : DOSExeAnalyzer) :
  parse_mz_header buf = inr a → discover buf = inr (export_json (analyze a)).
Proof. unfold discover. by intros ->. Qed.

(** Every exported record comes from a record of the final table, whose
    key its [entry_linear] prints. *)
Lemma exported_record_origin (buf : list byte) (a : DOSExeAnalyzer)
    (c : Catalog) (r : FunctionInfo) :
  parse_mz_header buf = inr a → discover buf = inr c →
  r ∈ cat_functions c →
  ∃ addr f, functions (analyze a) !! addr = Some f
            ∧ r = export_record f ∧ entry_linear r = Py.hex addr.
Proof.
  intros Hp Hd Hr. rewrite (discover_of_parse _ _ Hp) in Hd.
  injection Hd as <-. simpl in Hr.
  apply elem_of_export_functions in Hr as (addr & f & Hf & ->).
  exists addr, f. repeat split; [done|]. simpl.
  eapply analyze_entry_linear; [|done].
  by apply parse_mz_header_inr in Hp as (_ & ? & _).
Qed.

Lemma slice_from_lookup (buf : list byte) (cstart : Z) (k : nat) (b : byte) :
  0 ≤ cstart → Py.slice_from buf cstart !! k = Some b →
  buf !! Z.to_nat (cstart + Z.of_nat k) = Some b
  ∧ cstart + Z.of_nat k < Py.len buf.
Proof.
  intros Hc. unfold Py.slice_from, Py.norm_bound, Py.len.
  destruct (Z.ltb_spec cstart 0) as [?|_]; [lia|].
  rewrite lookup_drop. intros Hl. pose proof (lookup_lt_Some _ _ _ Hl) as Hlt.
  assert (Z.to_nat (cstart + Z.of_nat k)
          = (Z.to_nat (cstart `min` Z.of_nat (length buf)) + k)%nat) as -> by lia.
  split; [done|lia].
Qed.

(** A call site is the offset of a call opcode inside the file. *)
Lemma is_call_site_opcode (buf : list byte) (cstart s target : Z) :
  0 ≤ cstart →
  is_call_site cstart (Py.slice_from buf cstart) s target →
  s < Py.len buf
  ∧ ∃ op, buf !! Z.to_nat s = Some op
          ∧ (Py.b2z op = CALL_NEAR_REL16 ∨ Py.b2z op = CALL_FAR_PTR).
Proof.
  intros Hc [Hs Ht]. unfold call_target_at in Ht.
  destruct (drop _ _) as [|op [|lo [|hi rest]]] eqn:Hd; try done.
  assert (Py.slice_from buf cstart !! Z.to_nat (s - cstart) = Some op) as Hl.
  { rewrite <- (Nat.add_0_r (Z.to_nat _)), <- lookup_drop, Hd. done. }
  apply slice_from_lookup in Hl as [Hl Hlt]; [|done].
  replace (cstart + Z.of_nat (Z.to_nat (s - cstart))) with s in * by lia.
  split; [done|]. exists op. split; [done|].
  destruct (Z.eqb_spec (Py.b2z op) CALL_NEAR_REL16); [by left|].
  destruct (Z.eqb_spec (Py.b2z op) CALL_FAR_PTR); [by right|done].
Qed.

Lemma find_call_targets_sources (a : DOSExeAnalyzer) (target : Z) :
  call_sources a = ∅ →
  let srcs := default [] ((find_call_targets a).2 !! target) in
  StronglySorted Z.lt srcs
  ∧ Forall (λ s, is_call_site (code_start a)
                   (Py.slice_from (data a) (code_start a)) s target) srcs.
Proof.
  intros Hcs. destruct (find_call_targets_inv a Hcs) as (j & Hinv & _).
  destruct ((find_call_targets a).2 !! target) as [srcs|] eqn:Hl; simpl.
  - destruct (Hinv _ _ Hl) as [? Hall]. split; [done|].
    eapply Forall_impl; [exact Hall|]. by intros s [_ ?].
  - split; constructor.
Qed.

(** * The claims *)

(** ** Ordering of the exported array *)

(** C5: for every input image that yields a catalog, the [functions]
    array is sorted strictly ascending by entry linear address, and no
    two records have the same entry address. *)
Theorem exported_functions_strictly_ascending (buf : list byte) (c : Catalog) :
  discover buf = inr c →
  ∃ addrs : list Z,
    entry_linear <$> cat_functions c = Py.hex <$> addrs
    ∧ StronglySorted Z.lt addrs
    ∧ NoDup (entry_linear <$> cat_functions c).
Proof.
  intros (a & Hp & ->)%discover_inr.
  apply parse_mz_header_inr in Hp as (_ & Hfs & _).
  assert (entry_linear <$> cat_functions (export_json (analyze a))
          = Py.hex <$> sorted_keys (functions (analyze a))) as Heq.
  { apply export_functions_entry_linear. intros k f.
    by apply analyze_entry_linear. }
  exists (sorted_keys (functions (analyze a))).
  split; [done|]. split; [apply sorted_keys_strict|].
  rewrite Heq. apply (@NoDup_fmap_2 _ _ Py.hex hex_inj), NoDup_sorted_keys.
Qed.

Lemma exported_functions_strictly_ascending_witness :
  ∃ c, discover Samples.many_callers = inr c
       ∧ length (cat_functions c) = 2%nat
       ∧ ∃ addrs : list Z,
           entry_linear <$> cat_functions c = Py.hex <$> addrs
           ∧ StronglySorted Z.lt addrs
           ∧ NoDup (entry_linear <$> cat_functions c).
Proof.
  eexists. split; [vm_compute; reflexivity|]. split; [reflexivity|].
  apply (exported_functions_strictly_ascending Samples.many_callers).
  vm_compute. reflexivity.
Defined.

(** ** Prologue-only candidates *)

(** C4, as the code has it: no address other than the program's entry
    address that is matched by the prologue scan but not by the
    call-target scan is the entry address of an exported record.  (The
    entry record is created unconditionally, whatever the scans find.) *)
Theorem prologue_only_not_exported (buf : list byte) (a : DOSExeAnalyzer)
    (c : Catalog) (addr : Z) :
  parse_mz_header buf = inr a → discover buf = inr c →
  addr ∈ find_prologue_patterns a →
  addr ∉ (find_call_targets a).1 →
  addr ≠ entry_point a →
  ∀ r, r ∈ cat_functions c → entry_linear r ≠ Py.hex addr.
Proof.
  intros Hp Hd _ Hnt Hne r Hr Hel.
  destruct (exported_record_origin _ _ _ _ Hp Hd Hr) as (k & f & Hf & _ & Hk).
  rewrite Hel in Hk. apply hex_inj in Hk. subst k.
  apply parse_mz_header_inr in Hp as (_ & Hfs & _).
  apply analyze_lookup in Hf; [|done]. by destruct Hf as [[? _]|(_ & ? & _)].
Qed.

Lemma prologue_only_not_exported_witness :
  ∃ a c, parse_mz_header Samples.prologue_mid = inr a
         ∧ discover Samples.prologue_mid = inr c
         ∧ 33 ∈ find_prologue_patterns a
         ∧ (entry_linear <$> cat_functions c) = ["0x20"]
         ∧ ∀ r, r ∈ cat_functions c → entry_linear r ≠ Py.hex 33.
Proof.
  eexists. eexists.
  split; [vm_compute; reflexivity|]. split; [vm_compute; reflexivity|].
  split; [by_compute|].
  split; [reflexivity|].
  eapply (prologue_only_not_exported Samples.prologue_mid).
  - vm_compute. reflexivity.
  - vm_compute. reflexivity.
  - by_compute.
  - by_compute.
  - by_compute.
Defined.

(** The entry address of [Samples.prologue_only] matches the prologue
    scan only, and it is exported. *)
Lemma prologue_only_entry_is_exported :
  ∃ a c r, parse_mz_header Samples.prologue_only = inr a
           ∧ discover Samples.prologue_only = inr c
           ∧ 32 ∈ find_prologue_patterns a
           ∧ (32 ∉ (find_call_targets a).1)
           ∧ r ∈ cat_functions c
           ∧ entry_linear r = Py.hex 32.
Proof.
  eexists. eexists. eexists.
  split; [vm_compute; reflexivity|]. split; [vm_compute; reflexivity|].
  split; [by_compute|].
  split; [by_compute|].
  split; [left|reflexivity].
Qed.

(** ** Callers *)

(** The callers of an exported record, in terms of the call-edge map. *)
Lemma exported_callers (buf : list byte) (a : DOSExeAnalyzer) (c : Catalog)
    (r : FunctionInfo) :
  parse_mz_header buf = inr a → discover buf = inr c →
  r ∈ cat_functions c →
  ∃ addr, entry_linear r = Py.hex addr
    ∧ (addr = entry_point a → name r = "entry" ∧ callers r = []
                              ∧ notes r = "Program entry point")
    ∧ (addr ≠ entry_point a →
       addr ∈ (find_call_targets a).1 ∧ code_start a ≤ addr
       ∧ callers r
         = take 10 (Py.hex <$> default [] ((find_call_targets a).2 !! addr))).
Proof.
  intros Hp Hd Hr.
  destruct (exported_record_origin _ _ _ _ Hp Hd Hr) as (k & f & Hf & -> & Hk).
  exists k. split; [done|].
  apply parse_mz_header_inr in Hp as (_ & Hfs & _).
  apply analyze_lookup in Hf; [|done].
  destruct Hf as [[-> Hid]|(Hne & Ht & Hle & note & Hid)];
    destruct Hid as (Hn & _ & _ & Hc & _ & Hnt); simpl in *.
  - split; [|done]. intros _. by rewrite <- Hn, <- Hc, <- Hnt.
  - split; [done|]. intros _. by rewrite <- Hc.
Qed.

(** C7, as the code has it: the [callers] array of every exported
    record has at most 10 elements.  For every record but the entry
    record it is exactly the first 10 call sites recorded for that
    address in discovery order (the order of the sweep, ascending; all
    of them when there are fewer).  The entry record's [callers] is
    empty, whatever call sites target the entry address. *)
Theorem exported_callers_first_10_except_entry (buf : list byte)
    (a : DOSExeAnalyzer) (c : Catalog) (r : FunctionInfo) :
  parse_mz_header buf = inr a → discover buf = inr c →
  r ∈ cat_functions c →
  (length (callers r) ≤ 10)%nat
  ∧ ∃ addr, entry_linear r = Py.hex addr
      ∧ let discovered := default [] (call_sources (analyze a) !! addr) in
        StronglySorted Z.lt discovered
        ∧ (addr ≠ entry_point a → callers r = take 10 (Py.hex <$> discovered))
        ∧ (addr = entry_point a → callers r = []).
Proof.
  intros Hp Hd Hr.
  destruct (exported_callers _ _ _ _ Hp Hd Hr) as (addr & Hel & Hentry & Hother).
  apply parse_mz_header_inr in Hp as (_ & _ & Hcs & _).
  assert (length (callers r) ≤ 10)%nat as Hlen.
  { destruct (decide (addr = entry_point a)) as [He|Hne].
    - destruct (Hentry He) as (_ & -> & _). simpl. lia.
    - destruct (Hother Hne) as (_ & _ & ->). rewrite length_take. lia. }
  split; [done|]. exists addr. split; [done|].
  rewrite analyze_call_sources. cbv zeta.
  split; [by apply find_call_targets_sources|]. split.
  - intros Hne. by destruct (Hother Hne) as (_ & _ & ->).
  - intros He. by destruct (Hentry He) as (_ & -> & _).
Qed.

Lemma exported_callers_first_10_except_entry_witness :
  ∃ a c r, parse_mz_header Samples.many_callers = inr a
    ∧ discover Samples.many_callers = inr c
    ∧ cat_functions c !! 1%nat = Some r
    ∧ call_sources (analyze a) !! 66
      = Some [32; 35; 38; 41; 44; 47; 50; 53; 56; 59; 62]
    ∧ callers r = ["0x20"; "0x23"; "0x26"; "0x29"; "0x2C"; "0x2F"; "0x32";
                   "0x35"; "0x38"; "0x3B"]
    ∧ (length (callers r) ≤ 10)%nat.
Proof.
  eexists. eexists. eexists.
  split; [vm_compute; reflexivity|]. split; [vm_compute; reflexivity|].
  split; [reflexivity|]. split; [vm_compute; reflexivity|].
  split; [reflexivity|].
  eapply (exported_callers_first_10_except_entry Samples.many_callers).
  - vm_compute. reflexivity.
  - vm_compute. reflexivity.
  - right. left.
Defined.

(** In [Samples.entry_many_callers] eleven call sites target the entry
    address 66, and the record exported at 66 has no callers: not the
    first ten of them. *)
Lemma entry_with_callers_exports_none :
  ∃ a c r, parse_mz_header Samples.entry_many_callers = inr a
    ∧ discover Samples.entry_many_callers = inr c
    ∧ entry_point a = 66
    ∧ call_sources (analyze a) !! 66
      = Some [32; 35; 38; 41; 44; 47; 50; 53; 56; 59; 62]
    ∧ cat_functions c = [r]
    ∧ entry_linear r = Py.hex 66
    ∧ callers r = []
    ∧ callers r
      ≠ take 10 (Py.hex <$> [32; 35; 38; 41; 44; 47; 50; 53; 56; 59; 62]).
Proof.
  eexists. eexists. eexists.
  split; [vm_compute; reflexivity|]. split; [vm_compute; reflexivity|].
  split; [reflexivity|]. split; [vm_compute; reflexivity|].
  split; [reflexivity|]. split; [reflexivity|]. split; [reflexivity|].
  discriminate.
Qed.

(** C9: when the entry address is also a call target with recorded call
    sites, the catalog still has a record for it, and every record at
    that address has the name "entry", the note "Program entry point"
    and an empty [callers] list: the call-edge map is not applied to
    it. *)
Theorem entry_record_ignores_call_edges (buf : list byte)
    (a : DOSExeAnalyzer) (c : Catalog) (srcs : list Z) :
  parse_mz_header buf = inr a → discover buf = inr c →
  entry_point a ∈ (find_call_targets a).1 →
  call_sources (analyze a) !! entry_point a = Some srcs → srcs ≠ [] →
  (∃ r, r ∈ cat_functions c ∧ entry_linear r = Py.hex (entry_point a))
  ∧ ∀ r, r ∈ cat_functions c → entry_linear r = Py.hex (entry_point a) →
         name r = "entry" ∧ callers r = [] ∧ notes r = "Program entry point".
Proof.
  intros Hp Hd _ _ _. split.
  - pose proof Hp as (_ & Hfs & _)%parse_mz_header_inr.
    destruct (analyze_entry a Hfs) as (f & Hf & Hid).
    exists (export_record f). split.
    + rewrite (discover_of_parse _ _ Hp) in Hd. injection Hd as <-.
      apply elem_of_export_functions. eauto.
    + simpl. by destruct Hid as (_ & <- & _).
  - intros r Hr Hel.
    destruct (exported_callers _ _ _ _ Hp Hd Hr) as (addr & Hel' & Hentry & _).
    rewrite Hel in Hel'. apply hex_inj in Hel'. by apply Hentry.
Qed.

Lemma entry_record_ignores_call_edges_witness :
  ∃ a c, parse_mz_header Samples.scenario = inr a
    ∧ discover Samples.scenario = inr c
    ∧ call_sources (analyze a) !! entry_point a = Some [50]
    ∧ (∃ r, r ∈ cat_functions c ∧ entry_linear r = Py.hex (entry_point a))
    ∧ ∀ r, r ∈ cat_functions c → entry_linear r = Py.hex (entry_point a) →
           name r = "entry" ∧ callers r = [] ∧ notes r = "Program entry point".
Proof.
  eexists. eexists.
  split; [vm_compute; reflexivity|]. split; [vm_compute; reflexivity|].
  split; [vm_compute; reflexivity|].
  eapply (entry_record_ignores_call_edges Samples.scenario).
  - vm_compute. reflexivity.
  - vm_compute. reflexivity.
  - by_compute.
  - vm_compute. reflexivity.
  - discriminate.
Defined.

(** C10: every element of an exported [callers] list prints the file
    offset of a call opcode (0xE8 or 0x9A) in the code region whose
    decoded target is the record's address: the call site, at or after
    [code_start] and inside the file. *)
Theorem exported_callers_are_call_sites (buf : list byte)
    (a : DOSExeAnalyzer) (c : Catalog) (r : FunctionInfo) (caller : string) :
  parse_mz_header buf = inr a → discover buf = inr c →
  r ∈ cat_functions c → caller ∈ callers r →
  ∃ addr s op,
    entry_linear r = Py.hex addr ∧ caller = Py.hex s
    ∧ code_start a ≤ s < Py.len buf
    ∧ buf !! Z.to_nat s = Some op
    ∧ (Py.b2z op = CALL_NEAR_REL16 ∨ Py.b2z op = CALL_FAR_PTR)
    ∧ is_call_site (code_start a) (Py.slice_from buf (code_start a)) s addr.
Proof.
  intros Hp Hd Hr Hc.
  destruct (exported_callers _ _ _ _ Hp Hd Hr) as (addr & Hel & Hentry & Hother).
  destruct (decide (addr = entry_point a)) as [He|Hne].
  { destruct (Hentry He) as (_ & Hnil & _). rewrite Hnil in Hc.
    by apply elem_of_nil in Hc. }
  destruct (Hother Hne) as (_ & _ & Hcs). rewrite Hcs in Hc.
  apply elem_of_take in Hc as (i & Hc%list_elem_of_lookup_2 & _).
  apply list_elem_of_fmap in Hc as (s & -> & Hs).
  pose proof (parse_mz_header_bounds _ _ Hp) as [Hc0 _].
  apply parse_mz_header_inr in Hp as (Hdata & _ & Hsrc & _).
  destruct (find_call_targets_sources a addr Hsrc) as [_ Hall].
  rewrite Forall_forall in Hall. apply Hall in Hs. rewrite Hdata in Hs.
  destruct (is_call_site_opcode _ _ _ _ Hc0 Hs) as (Hlt & op & Hop & Hkind).
  exists addr, s, op. pose proof Hs as [Hs1 _].
  split; [done|]. split; [done|]. split; [by split|].
  split; [done|]. by split.
Qed.

Lemma exported_callers_are_call_sites_witness :
  ∃ a c r, parse_mz_header Samples.many_callers = inr a
    ∧ discover Samples.many_callers = inr c
    ∧ cat_functions c !! 1%nat = Some r
    ∧ "0x23" ∈ callers r
    ∧ Samples.many_callers !! 35%nat = Some xe8
    ∧ ∃ addr s op,
        entry_linear r = Py.hex addr ∧ "0x23" = Py.hex s
        ∧ code_start a ≤ s < Py.len Samples.many_callers
        ∧ Samples.many_callers !! Z.to_nat s = Some op
        ∧ (Py.b2z op = CALL_NEAR_REL16 ∨ Py.b2z op = CALL_FAR_PTR)
        ∧ is_call_site (code_start a)
            (Py.slice_from Samples.many_callers (code_start a)) s addr.
Proof.
  eexists. eexists. eexists.
  split; [vm_compute; reflexivity|]. split; [vm_compute; reflexivity|].
  split; [reflexivity|]. split; [by_compute|]. split; [reflexivity|].
  eapply (exported_callers_are_call_sites Samples.many_callers).
  - vm_compute. reflexivity.
  - vm_compute. reflexivity.
  - right. left.
  - by_compute.
Defined.

(** ** Size estimation *)

Section Sizes.

Lemma first_ret_None (j : Z) (code : list byte) :
  (∀ (k : nat) b, code !! k = Some b → is_ret b = false) →
  first_ret j code = None.
Proof.
  revert j. induction code as [|b tl IH]; intros j Hno; simpl; [done|].
  rewrite (Hno 0%nat b) by done. apply IH.
  intros k b' Hk. by apply (Hno (S k)).
Qed.

Lemma first_ret_Some (j : Z) (code : list byte) (k : nat) (b : byte) :
  code !! k = Some b → is_ret b = true →
  (∀ (k' : nat) b', (k' < k)%nat → code !! k' = Some b' → is_ret b' = false) →
  first_ret j code = Some (j + Z.of_nat k + 1).
Proof.
  revert j k. induction code as [|b0 tl IH]; intros j k Hk Hb Hno; [done|].
  simpl. destruct k as [|k]; simpl in Hk.
  - injection Hk as ->. rewrite Hb. f_equal. lia.
  - rewrite (Hno 0%nat b0) by (done || lia).
    rewrite (IH (j + 1) k); [f_equal; lia|done..|].
    intros k' b' Hlt Hk'. apply (Hno (S k')); [lia|done].
Qed.

Lemma slice_lookup (buf : list byte) (lo hi : Z) (k : nat) (b : byte) :
  0 ≤ lo → Py.slice buf lo hi !! k = Some b →
  buf !! Z.to_nat (lo + Z.of_nat k) = Some b.
Proof.
  intros Hlo. unfold Py.slice. intros [Hl _]%lookup_take_Some.
  revert Hl. unfold Py.norm_bound at 1.
  destruct (Z.ltb_spec lo 0) as [?|_]; [lia|].
  rewrite lookup_drop. intros Hl.
  pose proof (lookup_lt_Some _ _ _ Hl) as Hlt. unfold Py.len in *.
  by replace (Z.to_nat (lo + Z.of_nat k))
    with (Z.to_nat (lo `min` Z.of_nat (length buf)) + k)%nat by lia.
Qed.

(** The size the loop of [estimate_function_sizes] leaves at the [i]-th
    address of the sorted list. *)
Lemma estimate_function_sizes_lookup (buf : list byte)
    (fs : gmap Z FunctionInfo) (i : nat) (addr : Z) :
  sorted_keys fs !! i = Some addr →
  estimate_function_sizes buf fs !! addr
  = set_size_bytes
      (estimate_size buf addr (default (Py.len buf) (sorted_keys fs !! S i)))
      <$> fs !! addr.
Proof.
  intros Hi. unfold estimate_function_sizes.
  pose proof (NoDup_sorted_keys fs) as Hnd.
  rewrite <- (take_drop_middle _ _ _ Hi) in Hnd |- * at 1.
  apply NoDup_app in Hnd as (_ & Hnot & Hnd).
  apply NoDup_cons in Hnd as [Hnot' _].
  rewrite estimate_loop_size; [|intros Hin; eapply Hnot; [done|left]|done].
  do 3 f_equal. by rewrite head_lookup, lookup_drop, Nat.add_0_r.
Qed.

End Sizes.

Lemma analyze_keys_nonneg (buf : list byte) (a : DOSExeAnalyzer) (k : Z) :
  parse_mz_header buf = inr a →
  is_Some (functions (analyze a) !! k) → 0 ≤ k.
Proof.
  intros Hp [f Hf]. pose proof (parse_mz_header_bounds _ _ Hp) as [? ?].
  apply parse_mz_header_inr in Hp as (_ & Hfs & _).
  apply analyze_lookup in Hf; [|done].
  destruct Hf as [[-> _]|(_ & _ & ? & _)]; lia.
Qed.

(** The exported size of the [i]-th record. *)
Lemma exported_size (buf : list byte) (a : DOSExeAnalyzer) (c : Catalog)
    (i : nat) (addr : Z) (r : FunctionInfo) :
  parse_mz_header buf = inr a → discover buf = inr c →
  sorted_keys (functions (analyze a)) !! i = Some addr →
  cat_functions c !! i = Some r →
  entry_linear r = Py.hex addr
  ∧ size_bytes r
    = estimate_size buf addr
        (default (Py.len buf) (sorted_keys (functions (analyze a)) !! S i)).
Proof.
  intros Hp Hd Hi Hr. rewrite (discover_of_parse _ _ Hp) in Hd.
  injection Hd as <-. simpl in Hr.
  rewrite export_functions_lookup, Hi in Hr. simpl in Hr.
  destruct (functions (analyze a) !! addr) as [f|] eqn:Hf; [|done].
  injection Hr as <-. simpl.
  pose proof Hp as (Hdata & Hfs & _)%parse_mz_header_inr.
  split; [by eapply analyze_entry_linear|].
  revert Hi Hf. unfold analyze.
  destruct (merge_candidates a) as [fs2 src]. simpl.
  set (fs3 := map_fold apply_int_usage fs2 _). intros Hi Hf.
  assert (sorted_keys (estimate_function_sizes (data a) fs3) = sorted_keys fs3)
    as Hkeys.
  { apply sorted_keys_dom. apply estimate_loop_frame. }
  rewrite Hkeys in Hi |- *.
  rewrite (estimate_function_sizes_lookup _ _ _ _ Hi) in Hf.
  destruct (fs3 !! addr); [|done]. injection Hf as <-. simpl.
  by rewrite Hdata.
Qed.

Lemma first_ret_positive (j : Z) (code : list byte) (r : Z) :
  first_ret j code = Some r → j < r.
Proof.
  revert j. induction code as [|b tl IH]; intros j; simpl; [done|].
  destruct (is_ret b); [intros [= <-]; lia|].
  intros Hr%IH. lia.
Qed.

Lemma estimate_size_bounds (buf : list byte) (addr next_func : Z) :
  (addr ≤ next_func → 0 ≤ estimate_size buf addr next_func)
  ∧ (first_ret 0 (Py.slice buf addr next_func) = None →
     estimate_size buf addr next_func ≤ 65535).
Proof.
  unfold estimate_size.
  destruct (first_ret 0 _) as [r|] eqn:Hr; [|split; [lia|intros _; lia]].
  apply first_ret_positive in Hr.
  destruct (Z.eqb_spec r 0); [lia|]. split; [lia|done].
Qed.

Lemma StronglySorted_lt_next (l : list Z) (i : nat) (x y : Z) :
  StronglySorted Z.lt l → l !! i = Some x → l !! S i = Some y → x < y.
Proof.
  intros Hs. revert i. induction Hs as [|z l Hs IH Hall]; intros i Hx Hy; [done|].
  destruct i as [|i]; simpl in *.
  - injection Hx as ->. rewrite Forall_forall in Hall.
    apply Hall. eapply list_elem_of_lookup_2, Hy.
  - by eapply IH.
Qed.

(** Away from the RET branch the exported sizes are as the schema says:
    never negative when the entry point is not beyond the end of the
    file, and at most 65535 when the window holds no return opcode. *)
Lemma exported_size_bounds (buf : list byte) (a : DOSExeAnalyzer)
    (c : Catalog) (i : nat) (addr : Z) (r : FunctionInfo) :
  parse_mz_header buf = inr a → discover buf = inr c →
  sorted_keys (functions (analyze a)) !! i = Some addr →
  cat_functions c !! i = Some r →
  let next_start :=
    default (Py.len buf) (sorted_keys (functions (analyze a)) !! S i) in
  (entry_point a ≤ Py.len buf → 0 ≤ size_bytes r)
  ∧ ((∀ (j : nat) b, Py.slice buf addr next_start !! j = Some b →
                     is_ret b = false) →
     size_bytes r ≤ 65535).
Proof.
  intros Hp Hd Hi Hr next_start.
  destruct (exported_size _ _ _ _ _ _ Hp Hd Hi Hr) as [_ ->].
  fold next_start.
  destruct (estimate_size_bounds buf addr next_start) as [Hlo Hhi].
  split; [|intros Hno; by apply Hhi, first_ret_None].
  intros Hentry. apply Hlo. unfold next_start.
  destruct (sorted_keys (functions (analyze a)) !! S i) as [next|] eqn:Hn; simpl.
  { pose proof (StronglySorted_lt_next _ _ _ _
                  (sorted_keys_strict (functions (analyze a))) Hi Hn). lia. }
  assert (is_Some (functions (analyze a) !! addr)) as [f Hf].
  { apply elem_of_sorted_keys. eapply list_elem_of_lookup_2, Hi. }
  pose proof Hp as (Hdata & Hfs & Hcs & _)%parse_mz_header_inr.
  apply analyze_lookup in Hf; [|done].
  destruct Hf as [[-> _]|(_ & Ht & _)]; [done|].
  destruct (find_call_targets_inv a Hcs) as (j & _ & _ & Hb).
  apply Hb in Ht. rewrite Hdata in Ht. lia.
Qed.

(** C3: with the scan window bounded by the next exported address (the
    end of the file for the last record): if no return opcode occurs in
    the window, [size_bytes = min(next_start - this_start, 65535)];
    otherwise [size_bytes] is the file offset of the first return opcode
    of the window, minus [this_start], plus one. *)
Theorem size_bytes_window_formula (buf : list byte) (a : DOSExeAnalyzer)
    (c : Catalog) (i : nat) (addr : Z) (r : FunctionInfo) :
  parse_mz_header buf = inr a → discover buf = inr c →
  sorted_keys (functions (analyze a)) !! i = Some addr →
  cat_functions c !! i = Some r →
  let next_start :=
    default (Py.len buf) (sorted_keys (functions (analyze a)) !! S i) in
  let window := Py.slice buf addr next_start in
  entry_linear r = Py.hex addr
  ∧ ((∀ (j : nat) b, window !! j = Some b → is_ret b = false) →
     size_bytes r = Z.min (next_start - addr) 65535)
  ∧ (∀ (j : nat) b,
       window !! j = Some b → is_ret b = true →
       (∀ (k : nat) b', (k < j)%nat → window !! k = Some b' →
                        is_ret b' = false) →
       let return_opcode_offset := addr + Z.of_nat j in
       buf !! Z.to_nat return_opcode_offset = Some b
       ∧ size_bytes r = return_opcode_offset - addr + 1).
Proof.
  intros Hp Hd Hi Hr next_start window.
  destruct (exported_size _ _ _ _ _ _ Hp Hd Hi Hr) as [Hel Hsz].
  fold next_start in Hsz. unfold estimate_size in Hsz. fold window in Hsz.
  split; [done|]. split.
  - intros Hno. by rewrite (first_ret_None 0 window Hno) in Hsz.
  - intros j b Hj Hb Hfirst return_opcode_offset. split.
    + apply (slice_lookup _ _ next_start); [|done].
      eapply analyze_keys_nonneg; [done|].
      apply elem_of_sorted_keys. eapply list_elem_of_lookup_2, Hi.
    + rewrite (first_ret_Some 0 window j b Hj Hb Hfirst) in Hsz.
      destruct (Z.eqb_spec (0 + Z.of_nat j + 1) 0) as [?|_]; [lia|].
      unfold return_opcode_offset. lia.
Qed.

Lemma size_bytes_window_formula_witness :
  ∃ a c r, parse_mz_header Samples.many_callers = inr a
    ∧ discover Samples.many_callers = inr c
    ∧ sorted_keys (functions (analyze a)) = [32; 66]
    ∧ cat_functions c !! 0%nat = Some r
    ∧ size_bytes r = 34
    ∧ let next_start :=
        default (Py.len Samples.many_callers)
          (sorted_keys (functions (analyze a)) !! 1%nat) in
      let window := Py.slice Samples.many_callers 32 next_start in
      entry_linear r = Py.hex 32
      ∧ ((∀ (j : nat) b, window !! j = Some b → is_ret b = false) →
         size_bytes r = Z.min (next_start - 32) 65535)
      ∧ (∀ (j : nat) b,
           window !! j = Some b → is_ret b = true →
           (∀ (k : nat) b', (k < j)%nat → window !! k = Some b' →
                            is_ret b' = false) →
           let return_opcode_offset := 32 + Z.of_nat j in
           Samples.many_callers !! Z.to_nat return_opcode_offset = Some b
           ∧ size_bytes r = return_opcode_offset - 32 + 1).
Proof.
  eexists. eexists. eexists.
  split; [vm_compute; reflexivity|]. split; [vm_compute; reflexivity|].
  split; [vm_compute; reflexivity|]. split; [reflexivity|].
  split; [reflexivity|].
  eapply (size_bytes_window_formula Samples.many_callers).
  - vm_compute. reflexivity.
  - vm_compute. reflexivity.
  - vm_compute. reflexivity.
  - reflexivity.
Defined.

(** ** Header validation *)

(** C1, as the code has it: the constructor fails exactly when the first
    two bytes are not "MZ" ([ValueError]) or the buffer is shorter than
    the 26 header bytes it reads ([struct.error]), and then no catalog is
    produced.  Every other buffer is accepted, with
    [code_start = e_cparhdr * 16] and [entry_point = CS * 16 + IP] taken
    from the header without a bounds check, and its catalog contains the
    entry record. *)
Theorem header_rejected_only_for_magic_or_length (buf : list byte) :
  (Py.slice buf 0 2 ≠ MZ_magic → discover buf = inl ValueError)
  ∧ (Py.slice buf 0 2 = MZ_magic → (length buf < 26)%nat →
     discover buf = inl StructError)
  ∧ (Py.slice buf 0 2 = MZ_magic → (26 ≤ length buf)%nat →
     ∃ a c, parse_mz_header buf = inr a
       ∧ Py.unpack_H buf 8 = Some (e_cparhdr a)
       ∧ Py.unpack_H buf 20 = Some (e_ip a)
       ∧ Py.unpack_H buf 22 = Some (e_cs a)
       ∧ code_start a = e_cparhdr a * 16
       ∧ entry_point a = e_cs a * 16 + e_ip a
       ∧ discover buf = inr c
       ∧ ∃ r, r ∈ cat_functions c
              ∧ entry_linear r = Py.hex (entry_point a)
              ∧ notes r = "Program entry point").
Proof.
  split; [|split].
  - intros Hm. unfold discover, parse_mz_header.
    by rewrite bool_decide_eq_false_2.
  - intros Hm Hlen. unfold discover. by rewrite parse_mz_header_short.
  - intros Hm Hlen. destruct (parse_mz_header_ok buf Hm Hlen) as [a Hp].
    exists a, (export_json (analyze a)).
    pose proof Hp as (_ & Hfs & _ & H8 & H20 & H22 & Hcs & Hep)%parse_mz_header_inr.
    repeat (split; [done|]). split; [by apply discover_of_parse|].
    destruct (analyze_entry a Hfs) as (f & Hf & Hid).
    exists (export_record f). split; [|split].
    + apply elem_of_export_functions. eauto.
    + simpl. by destruct Hid as (_ & <- & _).
    + simpl. by destruct Hid as (_ & _ & _ & _ & _ & <-).
Qed.

Lemma header_rejected_only_for_magic_or_length_witness :
  discover (take 25 Samples.scenario) = inl StructError
  ∧ ∃ a c, parse_mz_header Samples.oversized = inr a
      ∧ Py.unpack_H Samples.oversized 8 = Some (e_cparhdr a)
      ∧ Py.unpack_H Samples.oversized 20 = Some (e_ip a)
      ∧ Py.unpack_H Samples.oversized 22 = Some (e_cs a)
      ∧ code_start a = e_cparhdr a * 16
      ∧ entry_point a = e_cs a * 16 + e_ip a
      ∧ discover Samples.oversized = inr c
      ∧ ∃ r, r ∈ cat_functions c
             ∧ entry_linear r = Py.hex (entry_point a)
             ∧ notes r = "Program entry point".
Proof.
  split.
  - apply (header_rejected_only_for_magic_or_length (take 25 Samples.scenario));
      [reflexivity|simpl; lia].
  - apply (header_rejected_only_for_magic_or_length Samples.oversized);
      [reflexivity|simpl; lia].
Defined.

(** [Samples.oversized] declares a code region and an entry point far
    beyond its 32 bytes; it is parsed and a catalog is produced. *)
Lemma oversized_header_is_accepted :
  ∃ a c, parse_mz_header Samples.oversized = inr a
    ∧ Py.len Samples.oversized = 32
    ∧ code_start a = 1048560
    ∧ entry_point a = 1114095
    ∧ Py.len Samples.oversized < code_start a
    ∧ ¬ (0 ≤ entry_point a < Py.len Samples.oversized)
    ∧ discover Samples.oversized = inr c
    ∧ entry_linear <$> cat_functions c = ["0x10FFEF"].
Proof.
  eexists. eexists. split; [vm_compute; reflexivity|].
  split; [reflexivity|]. split; [reflexivity|]. split; [reflexivity|].
  split; [reflexivity|]. split; [by_compute|].
  split; vm_compute; reflexivity.
Qed.

(** ** Size bound *)

(** C2 does not hold on the code: the branch for a found RET stores
    [ret_offset] unclamped.  On [Samples.far_ret] (entry 32 inside the
    file, first RET 65536 bytes later) the exported size is 65537. *)
Theorem far_ret_size_exceeds_65535 :
  ∃ c r, discover Samples.far_ret = inr c
    ∧ cat_functions c = [r]
    ∧ entry_linear r = "0x20"
    ∧ size_bytes r = 65537
    ∧ ¬ (size_bytes r ≤ 65535).
Proof.
  eexists. eexists. split; [vm_compute; reflexivity|].
  split; [reflexivity|]. split; [reflexivity|]. split; [reflexivity|].
  simpl. lia.
Qed.

(** For an image accepted with its entry point beyond the end of the
    file the clamped branch gives a negative size. *)
Lemma oversized_entry_size_negative :
  ∃ c r, discover Samples.oversized = inr c
    ∧ cat_functions c = [r]
    ∧ size_bytes r = 32 - 1114095.
Proof.
  eexists. eexists. split; [vm_compute; reflexivity|].
  split; reflexivity.
Qed.

(** ** Subsystem classification *)

(** C6: the subsystem is a function of the set of interrupt tags alone
    (two lists with the same elements classify alike, whatever the
    address and the order), it is the priority table 0x10 video, 0x21
    dos, 0x16 input, 0x08/0x1C timer, 0x33 mouse, 0x80/0x81 sound, else
    unknown, and a list whose elements are exactly 0x10 and 0x21 gives
    video. *)
Theorem classify_subsystem_order_independent (addr addr' : Z)
    (l l' : list string) :
  (∀ t, t ∈ l ↔ t ∈ l') →
  classify_subsystem addr l = classify_subsystem addr' l'
  ∧ classify_subsystem addr l = priority_table (λ t, t ∈ l)
  ∧ ((∀ t, t ∈ l ↔ t = "0x10" ∨ t = "0x21") →
     classify_subsystem addr l = "video").
Proof.
  intros Hset. split; [|split].
  - unfold classify_subsystem.
    by rewrite !(bool_decide_ext _ _ (Hset _)).
  - apply classify_subsystem_table.
  - intros Hl. unfold classify_subsystem.
    rewrite bool_decide_eq_true_2; [done|]. apply Hl. by left.
Qed.

Lemma classify_subsystem_order_independent_witness :
  classify_subsystem 32 ["0x21"; "0x10"]
  = classify_subsystem 66 ["0x10"; "0x21"; "0x10"]
  ∧ classify_subsystem 32 ["0x21"; "0x10"] = "video".
Proof.
  assert (∀ t : string, t ∈ ["0x21"; "0x10"] ↔ t ∈ ["0x10"; "0x21"; "0x10"])
    as Hset by (intros t; rewrite !elem_of_cons, elem_of_nil; tauto).
  destruct (classify_subsystem_order_independent 32 66 _ _ Hset)
    as (Heq & _ & Hvideo).
  split; [exact Heq|]. apply Hvideo.
  intros t. rewrite !elem_of_cons, elem_of_nil. tauto.
Defined.

(** ** The bare PUSH BP filter *)

Lemma starts_with_push_bp (code : list byte) (k : nat) :
  Py.starts_with [x55] (drop k code) = true ↔ code !! k = Some x55.
Proof.
  rewrite <- (Nat.add_0_r k) at 2. rewrite <- lookup_drop.
  destruct (drop k code) as [|b tl]; simpl; [split; discriminate|].
  destruct (Byte.eqb x55 b) eqn:Hb.
  - apply Byte.byte_dec_bl in Hb as <-. done.
  - apply Byte.eqb_false in Hb. split; [discriminate|]. by intros [= ->].
Qed.

Lemma push_bp_rejected_accepted (code : list byte) (k : nat) :
  push_bp_rejected code [x55] (Z.of_nat k) = false ↔ push_bp_accepted code k.
Proof.
  unfold push_bp_rejected, push_bp_accepted.
  rewrite bool_decide_eq_true_2 by done. simpl.
  replace (Z.to_nat (Z.of_nat k + 1)) with (S k) by lia.
  destruct (Z.ltb_spec (Z.of_nat k + 1) (Py.len code)) as [Hlt|Hge]; simpl.
  - destruct (code !! S k) as [b|] eqn:Hb; [|done].
    rewrite bool_decide_eq_false. split; [apply dec_stable|by intros ? ?].
  - rewrite lookup_ge_None_2 by (unfold Py.len in Hge; lia). done.
Qed.

(** C8, as the code has it: a match of the bare PUSH BP pattern is
    accepted when the byte after it is one of the accepted followers,
    and also when it is the last byte of the code region; otherwise it
    is rejected.  In every case the scan resumes one byte after the
    match, so the pass collects every 0x55 that passes the check. *)
Theorem bare_push_bp_filter (cstart : Z) (code : list byte) :
  (∀ (pos : Z) (prologues : gset Z), 0 ≤ pos →
     (Py.find code [x55] pos = -1
      ∧ prologue_step cstart code [x55] (pos, prologues) = None)
     ∨ ∃ idx : nat,
         Py.find code [x55] pos = Z.of_nat idx
         ∧ pos ≤ Z.of_nat idx ∧ code !! idx = Some x55
         ∧ (push_bp_accepted code idx →
            prologue_step cstart code [x55] (pos, prologues)
            = Some (Z.of_nat idx + 1, {[cstart + Z.of_nat idx]} ∪ prologues))
         ∧ (¬ push_bp_accepted code idx →
            prologue_step cstart code [x55] (pos, prologues)
            = Some (Z.of_nat idx + 1, prologues)))
  ∧ (∀ offset : Z,
       offset ∈ scan_pattern cstart code ∅ [x55] ↔
       ∃ idx : nat, offset = cstart + Z.of_nat idx
                    ∧ code !! idx = Some x55 ∧ push_bp_accepted code idx).
Proof.
  assert ([x55] ≠ []) as Hne by done. split.
  - intros pos prologues Hpos. unfold prologue_step.
    destruct (find_spec code [x55] Hne pos Hpos)
      as [[Hr _]|(k & Hr & Hk & Hm & _)]; rewrite Hr.
    + left. done.
    + right. exists k. apply starts_with_push_bp in Hm.
      destruct (Z.eqb_spec (Z.of_nat k) (-1)) as [?|_]; [lia|].
      split; [done|]. split; [lia|]. split; [done|]. split.
      * intros Hacc%push_bp_rejected_accepted. by rewrite Hacc.
      * intros Hrej. destruct (push_bp_rejected code [x55] (Z.of_nat k)) eqn:E;
          [done|]. by apply push_bp_rejected_accepted in E.
  - intros offset. rewrite (elem_of_scan_pattern _ _ _ Hne). split.
    + intros [[]%not_elem_of_empty|(k & -> & Hm & Hr)].
      exists k. split; [done|]. split; [by apply starts_with_push_bp|].
      by apply push_bp_rejected_accepted.
    + intros (k & -> & Hm & Hacc). right. exists k. split; [done|].
      split; [by apply starts_with_push_bp|].
      by apply push_bp_rejected_accepted.
Qed.

Lemma bare_push_bp_filter_witness :
  (32 ∉ scan_pattern 32 [x55; x55; x8b] ∅ [x55])
  ∧ 33 ∈ scan_pattern 32 [x55; x55; x8b] ∅ [x55].
Proof.
  destruct (bare_push_bp_filter 32 [x55; x55; x8b]) as [_ Hscan].
  split.
  - intros (idx & Hidx & _ & Hacc)%Hscan.
    assert (idx = 0%nat) as -> by lia.
    assert (¬ push_bp_accepted [x55; x55; x8b] 0) as Hrej
      by (unfold push_bp_accepted; simpl; by_compute).
    exact (Hrej Hacc).
  - apply Hscan. exists 1%nat. split; [reflexivity|].
    split; [reflexivity|]. unfold push_bp_accepted. simpl. by_compute.
Defined.

(** In [Samples.push_bp_last] the PUSH BP at 33 is the last byte of the
    file: no byte follows it, and the bare pattern accepts it. *)
Lemma bare_push_bp_accepted_at_end :
  ∃ a, parse_mz_header Samples.push_bp_last = inr a
    ∧ Py.slice_from (data a) (code_start a) = [x55; x55]
    ∧ Samples.push_bp_last !! 33%nat = Some x55
    ∧ Samples.push_bp_last !! 34%nat = None
    ∧ 33 ∈ scan_pattern (code_start a)
             (Py.slice_from (data a) (code_start a)) ∅ [x55]
    ∧ 33 ∈ find_prologue_patterns a.
Proof.
  eexists. split; [vm_compute; reflexivity|].
  split; [reflexivity|]. split; [reflexivity|]. split; [reflexivity|].
  split; by_compute.
Qed.

(** * Further properties of the analyzer *)

(** ** Header fields *)

Lemma parse_mz_header_header_size (buf : list byte) (a : DOSExeAnalyzer) :
  parse_mz_header buf = inr a → header_size a = code_start a.
Proof.
  unfold parse_mz_header. case_bool_decide; [|discriminate].
  repeat (match goal with
          | |- context [Py.unpack_H buf ?o] =>
              destruct (Py.unpack_H buf o) eqn:?; simpl; [|discriminate]
          end).
  by intros [= <-].
Qed.

(** X1: an accepted header gives [header_size = code_start =
    16 * e_cparhdr] and [entry_point = e_cs * 16 + e_ip], where
    [e_cparhdr], [e_ip] and [e_cs] are the 16-bit little-endian words at
    offsets 8, 20 and 22 of the file.  So the code start is between 0
    and 0xFFFF0 and the entry point between 0 and 0x10FFEF: the sum is
    taken as it is, not wrapped to 20 bits. *)
Theorem header_derived_ranges (buf : list byte) (a : DOSExeAnalyzer) :
  parse_mz_header buf = inr a →
  data a = buf
  ∧ Py.unpack_H buf 8 = Some (e_cparhdr a)
  ∧ Py.unpack_H buf 20 = Some (e_ip a)
  ∧ Py.unpack_H buf 22 = Some (e_cs a)
  ∧ header_size a = code_start a
  ∧ code_start a = 16 * e_cparhdr a
  ∧ entry_point a = e_cs a * 16 + e_ip a
  ∧ 0 ≤ code_start a ≤ 0xFFFF0
  ∧ 0 ≤ e_ip a ≤ 0xFFFF ∧ 0 ≤ e_cs a ≤ 0xFFFF
  ∧ 0 ≤ entry_point a ≤ 0x10FFEF.
Proof.
  intros Hp. pose proof (parse_mz_header_header_size _ _ Hp) as Hhs.
  apply parse_mz_header_inr in Hp as (Hd & _ & _ & H8 & H20 & H22 & Hcs & Hep).
  pose proof (unpack_H_nonneg _ _ _ H8).
  pose proof (unpack_H_nonneg _ _ _ H20).
  pose proof (unpack_H_nonneg _ _ _ H22).
  rewrite Hcs, Hep in *.
  repeat split; try done; lia.
Qed.

Lemma header_derived_ranges_witness :
  ∃ a, parse_mz_header Samples.oversized = inr a
    ∧ e_cs a = 0xFFFF ∧ e_ip a = 0xFFFF
    ∧ code_start a = 0xFFFF0 ∧ entry_point a = 0x10FFEF
    ∧ 0xFFFFF < entry_point a
    ∧ entry_point a = e_cs a * 16 + e_ip a.
Proof.
  eexists. split; [vm_compute; reflexivity|].
  split; [reflexivity|]. split; [reflexivity|].
  split; [reflexivity|]. split; [reflexivity|]. split; [reflexivity|].
  eapply (header_derived_ranges Samples.oversized). vm_compute. reflexivity.
Defined.

(** ** The prologue set *)

Lemma starts_with_prefix (pattern rest : list byte) :
  Py.starts_with pattern rest = true ↔ pattern `prefix_of` rest.
Proof.
  revert rest. induction pattern as [|p ps IH]; intros rest; simpl.
  - split; [intros _; apply prefix_nil|done].
  - destruct rest as [|r rs].
    + split; [done|]. intros Hp. by apply prefix_nil_inv in Hp.
    + destruct (Byte.eqb p r) eqn:Hb.
      * apply Byte.byte_dec_bl in Hb as ->. rewrite IH.
        split; [apply prefix_cons|apply prefix_cons_inv_2].
      * apply Byte.eqb_false in Hb. split; [done|].
        by intros ->%prefix_cons_inv_1.
Qed.

Lemma slice_from_lookup_eq (buf : list byte) (cstart : Z) (k : nat) :
  0 ≤ cstart →
  Py.slice_from buf cstart !! k = buf !! Z.to_nat (cstart + Z.of_nat k).
Proof.
  intros Hc. unfold Py.slice_from, Py.norm_bound, Py.len.
  destruct (Z.ltb_spec cstart 0) as [?|_]; [lia|]. rewrite lookup_drop.
  destruct (Z.le_gt_cases cstart (Z.of_nat (length buf))).
  - f_equal. lia.
  - rewrite !lookup_ge_None_2; [done|lia|lia].
Qed.

(** The prologue set in terms of the code region: the ENTER bytes and
    the PUSH BP bytes that pass the context check. *)
Lemma find_prologue_patterns_code (a : DOSExeAnalyzer) (x : Z) :
  let code := Py.slice_from (data a) (code_start a) in
  x ∈ find_prologue_patterns a ↔
    ∃ k : nat, x = code_start a + Z.of_nat k
      ∧ (code !! k = Some xc8
         ∨ (code !! k = Some x55 ∧ push_bp_accepted code k)).
Proof.
  intros code. rewrite elem_of_find_prologue_patterns. fold code. split.
  - intros (pattern & k & Hin & -> & Hm & Hrej). exists k. split; [done|].
    apply starts_with_prefix in Hm.
    assert (∀ (j : nat) b, pattern !! j = Some b → code !! (k + j)%nat = Some b)
      as Hat.
    { intros j b Hj. rewrite <- lookup_drop.
      by eapply prefix_lookup_Some. }
    unfold PROLOGUE_PATTERNS in Hin.
    rewrite !elem_of_cons, elem_of_nil in Hin.
    pose proof (Hat 0%nat) as H0. rewrite Nat.add_0_r in H0.
    pose proof (Hat 1%nat) as H1. replace (k + 1)%nat with (S k) in H1 by lia.
    destruct Hin as [->|[->|[->|[->|[->|[]]]]]].
    + right. split; [by apply H0|]. unfold push_bp_accepted.
      rewrite (H1 x8b) by done. by_compute.
    + right. split; [by apply H0|]. unfold push_bp_accepted.
      rewrite (H1 x89) by done. by_compute.
    + right. split; [by apply H0|]. unfold push_bp_accepted.
      rewrite (H1 x8b) by done. by_compute.
    + left. by apply H0.
    + right. split; [by apply H0|]. by apply push_bp_rejected_accepted.
  - intros (k & -> & [Hc8|[H55 Hacc]]).
    + exists [xc8], k. split; [by_compute|]. split; [done|]. split.
      * rewrite <- (Nat.add_0_r k), <- lookup_drop in Hc8.
        destruct (drop k code) as [|b tl]; [done|]. by injection Hc8 as ->.
      * done.
    + exists [x55], k. split; [by_compute|]. split; [done|]. split.
      * by apply starts_with_push_bp.
      * by apply push_bp_rejected_accepted.
Qed.

(** X2: for an accepted image, an offset is a prologue candidate exactly
    when it lies at or after [code_start] and the file has there either
    an ENTER opcode (0xC8), or a PUSH BP (0x55) that is the last byte of
    the file or is followed by one of 0x8B, 0x89, 0x83, 0x56, 0x57,
    0x1E, 0x06.  The three 3-byte patterns add nothing to the set. *)
Theorem prologue_candidates_characterised (buf : list byte)
    (a : DOSExeAnalyzer) (x : Z) :
  parse_mz_header buf = inr a →
  x ∈ find_prologue_patterns a ↔
    code_start a ≤ x
    ∧ (buf !! Z.to_nat x = Some xc8
       ∨ (buf !! Z.to_nat x = Some x55
          ∧ match buf !! Z.to_nat (x + 1) with
            | Some next_byte => Py.b2z next_byte ∈ PUSH_BP_FOLLOWERS
            | None => True
            end)).
Proof.
  intros Hp. pose proof (parse_mz_header_bounds _ _ Hp) as [Hc _].
  apply parse_mz_header_inr in Hp as (Hd & _).
  rewrite find_prologue_patterns_code, Hd. unfold push_bp_accepted. split.
  - intros (k & -> & Hk). rewrite !slice_from_lookup_eq in Hk by done.
    replace (code_start a + Z.of_nat (S k))
      with (code_start a + Z.of_nat k + 1) in Hk by lia.
    split; [lia|done].
  - intros [Hle Hx]. exists (Z.to_nat (x - code_start a)).
    split; [lia|]. rewrite !slice_from_lookup_eq by done.
    replace (code_start a + Z.of_nat (S (Z.to_nat (x - code_start a))))
      with (x + 1) by lia.
    by replace (code_start a + Z.of_nat (Z.to_nat (x - code_start a)))
      with x by lia.
Qed.

Lemma prologue_candidates_characterised_witness :
  ∃ a, parse_mz_header Samples.push_bp_last = inr a
    ∧ (32 ∉ find_prologue_patterns a)
    ∧ (33 ∈ find_prologue_patterns a ↔
       code_start a ≤ 33
       ∧ (Samples.push_bp_last !! Z.to_nat 33 = Some xc8
          ∨ (Samples.push_bp_last !! Z.to_nat 33 = Some x55
             ∧ match Samples.push_bp_last !! Z.to_nat (33 + 1) with
               | Some next_byte => Py.b2z next_byte ∈ PUSH_BP_FOLLOWERS
               | None => True
               end))).
Proof.
  eexists. split; [vm_compute; reflexivity|]. split; [by_compute|].
  apply (prologue_candidates_characterised Samples.push_bp_last).
  vm_compute. reflexivity.
Defined.

(** ** Interrupt attribution *)

Lemma foldl_max_spec (c : Z) (cs : list Z) :
  foldl Z.max c cs ∈ c :: cs ∧ ∀ x, x ∈ c :: cs → x ≤ foldl Z.max c cs.
Proof.
  revert c. induction cs as [|y cs IH]; intros c; simpl.
  - split; [left|]. intros x ->%list_elem_of_singleton. lia.
  - destruct (IH (c `max` y)) as [Hin Hmax]. split.
    + apply elem_of_cons in Hin as [Heq|Hin]; [|by do 2 right].
      rewrite Heq. destruct (Z.max_spec c y) as [[_ ->]|[_ ->]];
        [right; left|left].
    + intros x Hx. rewrite !elem_of_cons in Hx.
      destruct Hx as [->|[->|Hx]].
      * etrans; [|apply Hmax; left]. lia.
      * etrans; [|apply Hmax; left]. lia.
      * apply Hmax. by right.
Qed.

Lemma find_containing_function_Some (fs : gmap Z FunctionInfo)
    (addr f : Z) :
  find_containing_function fs addr = Some f →
  is_Some (fs !! f) ∧ f ≤ addr ∧ ∀ k, is_Some (fs !! k) → k ≤ addr → k ≤ f.
Proof.
  unfold find_containing_function.
  destruct (filter _ _) as [|c cs] eqn:Hf; [done|]. intros [= <-].
  destruct (foldl_max_spec c cs) as [Hin Hmax]. rewrite <- Hf in Hin, Hmax.
  apply list_elem_of_filter in Hin as [Hle Hin].
  apply elem_of_elements, elem_of_dom in Hin.
  split; [done|]. split; [done|]. intros k Hk Hka. apply Hmax.
  apply list_elem_of_filter. split; [done|].
  by apply elem_of_elements, elem_of_dom.
Qed.

Lemma find_containing_function_is_key (fs : gmap Z FunctionInfo)
    (addr key : Z) :
  find_containing_function fs addr = Some key → is_Some (fs !! key).
Proof. by intros (? & _)%find_containing_function_Some. Qed.

(** X3: [_find_containing_function] returns the greatest function
    address that is at most [addr], and [None] exactly when every
    function address is above [addr] (in particular on an empty
    table). *)
Theorem find_containing_function_greatest (fs : gmap Z FunctionInfo)
    (addr : Z) :
  match find_containing_function fs addr with
  | Some f =>
      is_Some (fs !! f) ∧ f ≤ addr
      ∧ ∀ k, is_Some (fs !! k) → k ≤ addr → k ≤ f
  | None => ∀ k, is_Some (fs !! k) → addr < k
  end.
Proof.
  destruct (find_containing_function fs addr) as [f|] eqn:Hf.
  { by apply find_containing_function_Some. }
  unfold find_containing_function in Hf.
  destruct (filter _ _) as [|c cs] eqn:Hfl; [|done].
  intros k Hk. destruct (Z.lt_ge_cases addr k) as [?|Hle]; [done|].
  assert (k ∈ filter (λ f, f ≤ addr) (elements (dom fs))) as Hin.
  { apply list_elem_of_filter. split; [lia|].
    by apply elem_of_elements, elem_of_dom. }
  rewrite Hfl in Hin. by apply elem_of_nil in Hin.
Qed.

Lemma hex02_byte_length (b : byte) :
  String.length (Py.hex02 (Py.b2z b)) = 4%nat.
Proof. destruct b; reflexivity. Qed.

Section IntSweep.

Variables (cstart : Z) (code : list byte) (fs : gmap Z FunctionInfo).

Lemma note_interrupt_inv (key : Z) (tag : string) (iu : gmap Z (list string)) :
  is_int_site cstart code fs key tag →
  int_inv cstart code fs iu →
  int_inv cstart code fs (note_interrupt key tag iu).
Proof.
  intros Hsite Hinv. unfold note_interrupt.
  set (iu1 := if bool_decide (key ∉ dom iu) then <[key:=[]]> iu else iu).
  assert (∀ k tags, k ≠ key → iu1 !! k = Some tags → iu !! k = Some tags)
    as Hother.
  { intros k tags Hk. unfold iu1. case_bool_decide; [|done].
    by rewrite lookup_insert_ne. }
  assert (NoDup (default [] (iu1 !! key))
          ∧ Forall (is_int_site cstart code fs key) (default [] (iu1 !! key)))
    as [Hnd Hall].
  { unfold iu1. case_bool_decide as Hin.
    - rewrite lookup_insert_eq. simpl. split; constructor.
    - apply elem_of_dom in Hin as [tags Ht]. rewrite Ht. simpl.
      by destruct (Hinv _ _ Ht) as (_ & ? & ?). }
  case_bool_decide as Hnew.
  - intros k tags. rewrite lookup_insert. case_decide as Hk.
    + subst k. intros [= <-]. split; [by destruct (default [] _)|]. split.
      * apply NoDup_app. split; [done|]. split; [|apply NoDup_singleton].
        intros x Hx ->%list_elem_of_singleton. done.
      * apply Forall_app. split; [done|]. by repeat constructor.
    + intros Hl. apply Hinv. by apply Hother.
  - intros k tags Hl. destruct (decide (k = key)) as [->|Hk].
    + rewrite Hl in Hnd, Hall, Hnew. simpl in *.
      split; [|done]. intros ->. by apply elem_of_nil in Hnew.
    + apply Hinv. by apply Hother.
Qed.

Lemma int_loop_inv (m : nat) :
  ∀ rest i iu,
    (length rest ≤ m)%nat → 0 ≤ i → drop (Z.to_nat i) code = rest →
    int_inv cstart code fs iu →
    int_inv cstart code fs (int_loop cstart (Py.len code) fs i rest iu).
Proof.
  induction m as [|m IH]; intros rest i iu Hm Hi Hd Hinv.
  { destruct rest; [|simpl in Hm; lia]. simpl. by destruct (i <? _). }
  destruct rest as [|op tl]; [simpl; by destruct (i <? _)|].
  cbn [int_loop]. destruct (i <? Py.len code - 1); [|done].
  simpl in Hm. destruct (Z.eqb_spec (Py.b2z op) 0xCD) as [Hop|_].
  - destruct tl as [|vector rest2]; [done|].
    apply IH.
    + simpl in *. lia.
    + lia.
    + by apply (drop_Z_add code i 2 [op; vector]).
    + destruct (find_containing_function fs (cstart + i)) as [key|] eqn:Hk;
        [|done].
      apply note_interrupt_inv; [|done].
      exists (Z.to_nat i), op, vector.
      split; [by rewrite <- (Nat.add_0_r (Z.to_nat i)), <- lookup_drop, Hd|].
      split; [done|].
      split; [replace (S (Z.to_nat i)) with (Z.to_nat i + 1)%nat by lia;
              by rewrite <- lookup_drop, Hd|].
      split; [done|]. by rewrite Z2Nat.id.
  - apply IH; [lia|lia|by apply (drop_Z_add code i 1 [op])|done].
Qed.

End IntSweep.

Lemma find_interrupt_handlers_inv (a : DOSExeAnalyzer)
    (fs : gmap Z FunctionInfo) :
  int_inv (code_start a) (Py.slice_from (data a) (code_start a)) fs
    (find_interrupt_handlers a fs).
Proof.
  unfold find_interrupt_handlers. eapply int_loop_inv; [done|done|done|].
  intros ??. by rewrite lookup_empty.
Qed.

Lemma is_int_site_length (cstart : Z) (code : list byte)
    (fs : gmap Z FunctionInfo) (key : Z) (tag : string) :
  is_int_site cstart code fs key tag → String.length tag = 4%nat.
Proof. intros (p & op & v & _ & _ & _ & -> & _). apply hex02_byte_length. Qed.

(** X4: every entry of the dictionary [find_interrupt_handlers] returns
    belongs to a known function address and holds a non-empty list
    without duplicates; each tag is 4 characters long and prints the
    vector byte of an INT instruction (0xCD, vector) of the code region
    whose nearest function address at or before it is that key. *)
Theorem interrupt_usage_sound (a : DOSExeAnalyzer)
    (fs : gmap Z FunctionInfo) (key : Z) (tags : list string) :
  find_interrupt_handlers a fs !! key = Some tags →
  is_Some (fs !! key) ∧ tags ≠ [] ∧ NoDup tags
  ∧ ∀ tag, tag ∈ tags →
      String.length tag = 4%nat
      ∧ is_int_site (code_start a) (Py.slice_from (data a) (code_start a))
          fs key tag.
Proof.
  intros Hl.
  destruct (find_interrupt_handlers_inv a fs _ _ Hl) as (Hne & Hnd & Hall).
  rewrite Forall_forall in Hall. split; [|split; [done|split; [done|]]].
  - destruct tags as [|tag tags']; [done|].
    destruct (Hall tag) as (p & op & v & _ & _ & _ & _ & Hk); [left|].
    by eapply find_containing_function_is_key.
  - intros tag Ht. split; [|by apply Hall].
    destruct (Hall tag Ht) as (p & op & v & _ & _ & _ & -> & _).
    apply hex02_byte_length.
Qed.

Lemma interrupt_usage_sound_witness :
  ∃ a, parse_mz_header Samples.video_dos = inr a
    ∧ find_interrupt_handlers a (merge_candidates a).1 !! 32
      = Some ["0x10"; "0x21"]
    ∧ is_Some ((merge_candidates a).1 !! 32)
    ∧ ["0x10"; "0x21"] ≠ [] ∧ NoDup ["0x10"; "0x21"]
    ∧ ∀ tag, tag ∈ ["0x10"; "0x21"] →
        String.length tag = 4%nat
        ∧ is_int_site (code_start a)
            (Py.slice_from (data a) (code_start a))
            (merge_candidates a).1 32 tag.
Proof.
  eexists. split; [vm_compute; reflexivity|].
  split; [vm_compute; reflexivity|].
  apply interrupt_usage_sound. vm_compute. reflexivity.
Defined.

(** ** The call sweep as a list of accepted calls *)

Section CallEvents.

Variables (cstart data_len : Z).

Lemma record_calls_app (st : call_state) (ev1 ev2 : list (Z * Z)) :
  record_calls st (ev1 ++ ev2) = record_calls (record_calls st ev1) ev2.
Proof. apply foldl_app. Qed.

Lemma accept_call_events (target source : Z) (st : call_state) :
  accept_call data_len target source st
  = record_calls st (accepted_call data_len target source).
Proof.
  unfold accept_call, accepted_call.
  by destruct ((0 <=? target) && (target <? data_len)).
Qed.

Lemma call_loop_events (n : Z) (m : nat) :
  ∀ rest i st,
    (length rest ≤ m)%nat →
    call_loop cstart data_len n i rest st
    = record_calls st (call_events cstart data_len n i rest).
Proof.
  induction m as [|m IH]; intros rest i st Hm.
  { destruct rest; [|simpl in Hm; lia]. simpl. by destruct (i <? _). }
  destruct rest as [|op tl]; [simpl; by destruct (i <? _)|].
  cbn [call_loop call_events]. destruct (i <? n - 3); [|done].
  simpl in Hm. destruct (Py.b2z op =? CALL_NEAR_REL16).
  { destruct tl as [|lo [|hi rest3]]; try done.
    rewrite record_calls_app, IH by (simpl in *; lia).
    f_equal. destruct (i + 3 <=? n); [apply accept_call_events|done]. }
  destruct (Py.b2z op =? CALL_FAR_PTR).
  { destruct tl as [|olo [|ohi [|slo [|shi rest5]]]]; try done.
    rewrite record_calls_app, IH by (simpl in *; lia).
    f_equal. destruct (i + 5 <=? n); [apply accept_call_events|done]. }
  destruct (Py.b2z op =? CALL_RM16); apply IH; lia.
Qed.

(** Every accepted call has its target inside the file and its source
    at an index the loop condition admits. *)
Lemma call_events_bounds (n : Z) (m : nat) :
  ∀ rest i,
    (length rest ≤ m)%nat →
    Forall (λ e, 0 ≤ e.1 < data_len ∧ cstart + i ≤ e.2 < cstart + n - 3)
      (call_events cstart data_len n i rest).
Proof.
  assert (∀ i j target,
            i ≤ j < n - 3 →
            Forall (λ e, 0 ≤ e.1 < data_len ∧ cstart + i ≤ e.2 < cstart + n - 3)
              (accepted_call data_len target (cstart + j))) as Hacc.
  { intros i j target Hj. unfold accepted_call.
    destruct ((0 <=? target) && (target <? data_len)) eqn:Hb; [|constructor].
    apply andb_true_iff in Hb as [?%Z.leb_le ?%Z.ltb_lt].
    constructor; [|constructor]. simpl. lia. }
  assert (∀ i j l,
            i ≤ j →
            Forall (λ e, 0 ≤ e.1 < data_len ∧ cstart + j ≤ e.2 < cstart + n - 3) l →
            Forall (λ e, 0 ≤ e.1 < data_len ∧ cstart + i ≤ e.2 < cstart + n - 3) l)
    as Hmono.
  { intros i j l Hij Hl. eapply Forall_impl; [exact Hl|]. simpl. intros e. lia. }
  induction m as [|m IH]; intros rest i Hm.
  { destruct rest; [|simpl in Hm; lia]. simpl. by destruct (i <? _). }
  destruct rest as [|op tl]; [simpl; by destruct (i <? _)|].
  cbn [call_events]. destruct (Z.ltb_spec i (n - 3)) as [Hi|_]; [|done].
  simpl in Hm. destruct (Py.b2z op =? CALL_NEAR_REL16).
  { destruct tl as [|lo [|hi rest3]]; try done.
    apply Forall_app. split.
    - destruct (i + 3 <=? n); [apply Hacc; lia|done].
    - apply (Hmono i (i + 3)); [lia|]. apply IH. simpl in *. lia. }
  destruct (Py.b2z op =? CALL_FAR_PTR).
  { destruct tl as [|olo [|ohi [|slo [|shi rest5]]]]; try done.
    apply Forall_app. split.
    - destruct (i + 5 <=? n); [apply Hacc; lia|done].
    - apply (Hmono i (i + 5)); [lia|]. apply IH. simpl in *. lia. }
  apply (Hmono i (i + 1)); [lia|]. apply IH. lia.
Qed.

Lemma record_call_sources (target source : Z) (st : call_state) (t : Z) :
  (record_call target source st).2 !! t
  = if decide (t = target)
    then Some (default [] (st.2 !! t) ++ [source])
    else st.2 !! t.
Proof.
  destruct st as [T S]. unfold record_call. cbn [snd].
  case_decide as Ht.
  - subst t. rewrite lookup_insert_eq. do 2 f_equal.
    case_bool_decide as Hin; [|done].
    rewrite lookup_insert_eq. apply not_elem_of_dom in Hin. by rewrite Hin.
  - rewrite lookup_insert_ne by done.
    case_bool_decide; [|done]. by rewrite lookup_insert_ne.
Qed.

Lemma record_call_targets (target source : Z) (st : call_state) :
  (record_call target source st).1 = {[target]} ∪ st.1.
Proof. by destruct st. Qed.

Lemma record_calls_targets (st : call_state) (events : list (Z * Z)) (t : Z) :
  t ∈ (record_calls st events).1 ↔ t ∈ events.*1 ∨ t ∈ st.1.
Proof.
  revert st. induction events as [|e ev IH]; intros st; simpl.
  - rewrite elem_of_nil. tauto.
  - unfold record_calls in *. simpl. rewrite IH, record_call_targets.
    rewrite elem_of_union, elem_of_singleton, elem_of_cons. tauto.
Qed.

Lemma record_calls_sources (st : call_state) (events : list (Z * Z)) (t : Z) :
  (record_calls st events).2 !! t
  = if decide (sources_of t events = [])
    then st.2 !! t
    else Some (default [] (st.2 !! t) ++ sources_of t events).
Proof.
  revert st. induction events as [|e ev IH]; intros st; [done|].
  unfold record_calls in *. simpl. rewrite IH, record_call_sources.
  unfold sources_of. rewrite filter_cons. simpl.
  destruct (decide (t = e.1)) as [->|Hne].
  - rewrite !(decide_True (P := e.1 = e.1)) by done. rewrite fmap_cons.
    rewrite (decide_False (P := _ :: _ = [])) by done. simpl.
    destruct (decide ((filter (λ e0 : Z * Z, e0.1 = e.1) ev).*2 = []))
      as [Hnil|Hnil].
    + by rewrite Hnil.
    + by rewrite <- (assoc_L (++)).
  - by rewrite !(decide_False (P := e.1 = t)) by (intros Heq; by apply Hne).
Qed.

End CallEvents.

Lemma find_call_targets_events (a : DOSExeAnalyzer) :
  let code := Py.slice_from (data a) (code_start a) in
  find_call_targets a
  = record_calls (∅, call_sources a)
      (call_events (code_start a) (Py.len (data a)) (Py.len code) 0 code).
Proof. intros code. unfold find_call_targets. by eapply call_loop_events. Qed.

Lemma slice_from_len (buf : list byte) (cstart : Z) :
  0 ≤ cstart →
  Py.len (Py.slice_from buf cstart) = Py.len buf - Z.min cstart (Py.len buf).
Proof.
  intros Hc. unfold Py.slice_from, Py.norm_bound, Py.len.
  destruct (Z.ltb_spec cstart 0) as [?|_]; [lia|].
  rewrite length_drop. lia.
Qed.

(** X5: in the call-edge map of an accepted image the keys are exactly
    the call targets, every target lies inside the file, and every list
    of sources is non-empty and strictly ascending.  Each source is at
    or after [code_start] and more than three bytes before the end of
    the file: a call opcode in the last three bytes is never looked
    at. *)
Theorem call_edges_well_formed (buf : list byte) (a : DOSExeAnalyzer)
    (t : Z) :
  parse_mz_header buf = inr a →
  (t ∈ (find_call_targets a).1 ↔ is_Some ((find_call_targets a).2 !! t))
  ∧ ∀ srcs, (find_call_targets a).2 !! t = Some srcs →
      0 ≤ t < Py.len buf
      ∧ srcs ≠ [] ∧ StronglySorted Z.lt srcs
      ∧ ∀ s, s ∈ srcs → code_start a ≤ s ∧ s + 3 < Py.len buf.
Proof.
  intros Hp. pose proof (parse_mz_header_bounds _ _ Hp) as [Hc0 _].
  apply parse_mz_header_inr in Hp as (Hdata & _ & Hcs & _).
  destruct (find_call_targets_inv a Hcs) as (j & Hsrc & Hdom & Hb).
  split; [by rewrite Hdom, elem_of_dom|].
  intros srcs Hl.
  assert (t ∈ (find_call_targets a).1) as Ht
    by (rewrite Hdom, elem_of_dom; by eexists).
  split; [rewrite <- Hdata; by apply Hb|].
  destruct (Hsrc _ _ Hl) as [Hsorted _].
  revert Hl. rewrite find_call_targets_events, record_calls_sources, Hcs.
  simpl. rewrite lookup_empty. case_decide as Hnil; [done|].
  intros [= <-]. split; [done|]. split; [done|].
  intros s Hs. unfold sources_of in Hs.
  apply list_elem_of_fmap in Hs as (e & -> & He).
  apply list_elem_of_filter in He as [_ He].
  pose proof (call_events_bounds (code_start a) (Py.len (data a))
                (Py.len (Py.slice_from (data a) (code_start a)))
                _ (Py.slice_from (data a) (code_start a)) 0 (le_n _)) as Hall.
  rewrite Forall_forall in Hall. apply Hall in He as [_ He].
  rewrite slice_from_len in He by done. rewrite Hdata in He.
  pose proof (len_nonneg buf). lia.
Qed.

Lemma call_edges_well_formed_witness :
  ∃ a, parse_mz_header Samples.many_callers = inr a
    ∧ (find_call_targets a).2 !! 66
      = Some [32; 35; 38; 41; 44; 47; 50; 53; 56; 59; 62]
    ∧ (66 ∈ (find_call_targets a).1
       ↔ is_Some ((find_call_targets a).2 !! 66))
    ∧ ∀ srcs, (find_call_targets a).2 !! 66 = Some srcs →
        0 ≤ 66 < Py.len Samples.many_callers
        ∧ srcs ≠ [] ∧ StronglySorted Z.lt srcs
        ∧ ∀ s, s ∈ srcs →
            code_start a ≤ s ∧ s + 3 < Py.len Samples.many_callers.
Proof.
  eexists. split; [vm_compute; reflexivity|].
  split; [vm_compute; reflexivity|].
  apply (call_edges_well_formed Samples.many_callers).
  vm_compute. reflexivity.
Defined.

(** ** The final table, record by record *)

Lemma apply_int_usage_lookup (fs : gmap Z FunctionInfo)
    (iu : gmap Z (list string)) (k : Z) :
  map_fold apply_int_usage fs iu !! k
  = (λ f, match iu !! k with
          | Some ints => set_int_usage ints (classify_subsystem k ints) f
          | None => f
          end) <$> fs !! k.
Proof.
  apply (map_fold_weak_ind
           (λ r m, r !! k
                   = (λ f, match m !! k with
                           | Some ints =>
                               set_int_usage ints (classify_subsystem k ints) f
                           | None => f
                           end) <$> fs !! k)).
  - rewrite lookup_empty. by destruct (fs !! k).
  - intros addr ints m r Hnone IH.
    assert (apply_int_usage addr ints r
            = alter (set_int_usage ints (classify_subsystem addr ints)) addr r)
      as ->.
    { unfold apply_int_usage. case_bool_decide as Hin; [done|].
      apply not_elem_of_dom in Hin. apply map_eq. intros j.
      rewrite lookup_alter. case_decide; [subst; by rewrite Hin|done]. }
    rewrite lookup_alter, lookup_insert. case_decide as Hk.
    + subst k. rewrite IH, Hnone. by destruct (fs !! addr).
    + exact IH.
Qed.

Lemma estimate_loop_lookup (buf : list byte) (l : list Z)
    (fs : gmap Z FunctionInfo) (k : Z) :
  NoDup l →
  estimate_loop buf l fs !! k
  = if decide (k ∈ l) then set_size_bytes (size_for buf l k) <$> fs !! k
    else fs !! k.
Proof.
  revert fs. induction l as [|addr later IH]; intros fs Hnd.
  { cbn [estimate_loop]. rewrite decide_False; [done|apply not_elem_of_nil]. }
  apply NoDup_cons in Hnd as [Hnot Hnd].
  cbn [estimate_loop size_for]. rewrite IH by done.
  destruct (decide (k = addr)) as [->|Hne].
  - rewrite (decide_False (P := addr ∈ later)) by done.
    rewrite (decide_True (P := addr ∈ addr :: later)) by left.
    rewrite lookup_alter_eq. by destruct later.
  - rewrite lookup_alter_ne by done.
    destruct (decide (k ∈ later)) as [Hin|Hnin].
    + rewrite decide_True; [done|by right].
    + rewrite decide_False; [done|]. rewrite elem_of_cons. tauto.
Qed.

Lemma estimate_function_sizes_all (buf : list byte)
    (fs : gmap Z FunctionInfo) (k : Z) :
  estimate_function_sizes buf fs !! k
  = set_size_bytes (size_for buf (sorted_keys fs) k) <$> fs !! k.
Proof.
  unfold estimate_function_sizes.
  rewrite estimate_loop_lookup by apply NoDup_sorted_keys.
  case_decide as Hin; [done|].
  rewrite elem_of_sorted_keys in Hin.
  destruct (fs !! k); [|done]. exfalso. apply Hin. by eexists.
Qed.

Lemma analyze_functions_lookup (a : DOSExeAnalyzer) (k : Z) :
  functions (analyze a) !! k
  = finish_record a (merge_candidates a).1 k <$> (merge_candidates a).1 !! k.
Proof.
  unfold analyze, finish_record.
  destruct (merge_candidates a) as [fs2 src]. cbn [functions with_results fst].
  rewrite estimate_function_sizes_all, apply_int_usage_lookup.
  rewrite <- option_fmap_compose.
  rewrite (sorted_keys_dom _ fs2) by apply apply_int_usage_frame.
  done.
Qed.

Lemma classify_subsystem_values (addr : Z) (l : list string) :
  classify_subsystem addr l
  ∈ ["video"; "dos"; "input"; "timer"; "mouse"; "sound"; "unknown"].
Proof.
  unfold classify_subsystem.
  repeat lazymatch goal with
    | |- context [if ?b then _ else _] =>
        destruct b; [rewrite !elem_of_cons; tauto|]
    end.
  rewrite !elem_of_cons. tauto.
Qed.

(** X6: in every exported record the subsystem is the classification of
    the record's own [int_usage] list and one of the seven tags; the
    list has no duplicates and every tag in it is 4 characters long;
    [stack_frame_size] is 0 and [source_recording_id] is empty. *)
Theorem exported_record_consistent (buf : list byte) (a : DOSExeAnalyzer)
    (c : Catalog) (r : FunctionInfo) :
  parse_mz_header buf = inr a → discover buf = inr c →
  r ∈ cat_functions c →
  (∀ addr, subsystem r = classify_subsystem addr (int_usage r))
  ∧ subsystem r
    ∈ ["video"; "dos"; "input"; "timer"; "mouse"; "sound"; "unknown"]
  ∧ NoDup (int_usage r)
  ∧ (∀ tag, tag ∈ int_usage r → String.length tag = 4%nat)
  ∧ stack_frame_size r = 0 ∧ source_recording_id r = "".
Proof.
  intros Hp Hd Hr.
  destruct (exported_record_origin _ _ _ _ Hp Hd Hr) as (k & f & Hf & -> & _).
  pose proof Hp as (_ & Hfs & _)%parse_mz_header_inr.
  pose proof Hf as Hf'. apply analyze_lookup in Hf'; [|done].
  assert (stack_frame_size f = 0 ∧ source_recording_id f = "") as [Hsf Hid].
  { destruct Hf' as [[_ Hs]|(_ & _ & _ & note & Hs)];
      destruct Hs as (_ & _ & <- & _ & <- & _); done. }
  rewrite analyze_functions_lookup in Hf.
  destruct ((merge_candidates a).1 !! k) as [f2|] eqn:Hf2; [|done].
  injection Hf as <-. unfold finish_record in *. simpl.
  assert (subsystem f2 = "unknown" ∧ int_usage f2 = []) as [Hsub Hiu].
  { rewrite merge_candidates_lookup in Hf2 by done.
    repeat case_decide; try done; by injection Hf2 as <-. }
  destruct (find_interrupt_handlers a (merge_candidates a).1 !! k)
    as [ints|] eqn:Hints; simpl.
  - destruct (find_interrupt_handlers_inv _ _ _ _ Hints) as (_ & Hnd & Hall).
    rewrite Forall_forall in Hall.
    split; [intros addr; reflexivity|].
    split; [apply classify_subsystem_values|]. split; [done|].
    split; [|done]. intros tag Ht. eapply is_int_site_length. by apply Hall.
  - rewrite Hsub, Hiu. split; [intros addr; reflexivity|].
    split; [by_compute|]. split; [constructor|].
    split; [|done]. by intros tag ?%elem_of_nil.
Qed.

Lemma exported_record_consistent_witness :
  ∃ a c r, parse_mz_header Samples.video_dos = inr a
    ∧ discover Samples.video_dos = inr c
    ∧ cat_functions c = [r]
    ∧ int_usage r = ["0x10"; "0x21"] ∧ subsystem r = "video"
    ∧ NoDup (int_usage r).
Proof.
  eexists. eexists. eexists.
  split; [vm_compute; reflexivity|]. split; [vm_compute; reflexivity|].
  split; [reflexivity|]. split; [reflexivity|]. split; [reflexivity|].
  eapply (exported_record_consistent Samples.video_dos).
  - vm_compute. reflexivity.
  - vm_compute. reflexivity.
  - left.
Defined.

(** The merged table for any starting [functions] dictionary: records
    already present (the entry record first) are kept. *)
Lemma merge_candidates_lookup_gen (a : DOSExeAnalyzer) (k : Z) :
  (merge_candidates a).1 !! k
  = match <[entry_point a := entry_record a]> (functions a) !! k with
    | Some f => Some f
    | None =>
        if decide (k ∈ (find_call_targets a).1 ∧ code_start a ≤ k)
        then Some (candidate_record (find_call_targets a).2
                     (if decide (k ∈ find_prologue_patterns a)
                      then "auto-discovered (prologue+call)"
                      else "auto-discovered (call target)") k)
        else None
    end.
Proof.
  unfold merge_candidates.
  destruct (find_call_targets a) as [targets src]. cbn [fst snd].
  rewrite !set_fold_add_candidate_lookup. fold (entry_record a).
  destruct (<[entry_point a:=entry_record a]> (functions a) !! k); [done|].
  destruct (decide (k ∈ find_prologue_patterns a)) as [Hp|Hp].
  - destruct (decide (k ∈ targets ∧ code_start a ≤ k)) as [[? ?]|Hn].
    + rewrite decide_True; [done|]. by rewrite elem_of_intersection.
    + rewrite decide_False by (rewrite elem_of_intersection; tauto).
      rewrite decide_False; [done|]. rewrite elem_of_difference. tauto.
  - rewrite decide_False by (rewrite elem_of_intersection; tauto).
    destruct (decide (k ∈ targets ∧ code_start a ≤ k)) as [[? ?]|Hn].
    + rewrite decide_True; [done|].
      rewrite elem_of_difference, elem_of_intersection. tauto.
    + rewrite decide_False; [done|]. rewrite elem_of_difference. tauto.
Qed.

(** X7: an exported record at an address other than the entry point is
    named "FUN_" plus the address in at least five upper-case hex
    digits, its address is a call target inside the code region of the
    file, and its note says whether the address also matched the
    prologue scan. *)
Theorem exported_candidate_record (buf : list byte) (a : DOSExeAnalyzer)
    (c : Catalog) (r : FunctionInfo) (addr : Z) :
  parse_mz_header buf = inr a → discover buf = inr c →
  r ∈ cat_functions c → entry_linear r = Py.hex addr →
  addr ≠ entry_point a →
  name r = "FUN_" +:+ Py.fmt_0X 5 addr
  ∧ code_start a ≤ addr < Py.len buf
  ∧ addr ∈ (find_call_targets a).1
  ∧ (addr ∈ find_prologue_patterns a →
     notes r = "auto-discovered (prologue+call)")
  ∧ (addr ∉ find_prologue_patterns a →
     notes r = "auto-discovered (call target)").
Proof.
  intros Hp Hd Hr Hel Hne.
  destruct (exported_record_origin _ _ _ _ Hp Hd Hr) as (k & f & Hf & -> & Hk).
  rewrite Hel in Hk. apply hex_inj in Hk. subst k.
  pose proof Hp as (Hdata & Hfs & Hcs & _)%parse_mz_header_inr.
  rewrite analyze_functions_lookup, merge_candidates_lookup in Hf by done.
  rewrite decide_False in Hf by done.
  destruct (decide (addr ∈ (find_call_targets a).1 ∧ code_start a ≤ addr))
    as [[Ht Hle]|]; [|done].
  injection Hf as <-.
  unfold export_record, set_callers. cbn [name notes].
  destruct (find_call_targets_inv a Hcs) as (j & _ & _ & Hb).
  apply Hb in Ht as Hrange. rewrite Hdata in Hrange.
  assert (∀ f2, name (finish_record a (merge_candidates a).1 addr f2) = name f2
                ∧ notes (finish_record a (merge_candidates a).1 addr f2)
                  = notes f2) as Hkeep.
  { intros f2. unfold finish_record. by destruct (_ !! addr). }
  rewrite !(proj1 (Hkeep _)), !(proj2 (Hkeep _)). simpl.
  split; [done|]. split; [lia|]. split; [done|].
  split; intros Hpro; [by rewrite decide_True|by rewrite decide_False].
Qed.

Lemma exported_candidate_record_witness :
  ∃ a c r, parse_mz_header Samples.many_callers = inr a
    ∧ discover Samples.many_callers = inr c
    ∧ cat_functions c !! 1%nat = Some r
    ∧ name r = "FUN_00042"
    ∧ notes r = "auto-discovered (prologue+call)"
    ∧ code_start a ≤ 66 < Py.len Samples.many_callers.
Proof.
  eexists. eexists. eexists.
  split; [vm_compute; reflexivity|]. split; [vm_compute; reflexivity|].
  split; [reflexivity|]. split; [reflexivity|]. split; [reflexivity|].
  eapply (exported_candidate_record Samples.many_callers _ _ _ 66).
  - vm_compute. reflexivity.
  - vm_compute. reflexivity.
  - right. left.
  - reflexivity.
  - by_compute.
Defined.

(** X8: the catalog of an accepted image has a record at an address
    exactly when the address is the entry point or a call target at or
    after [code_start]; no call target in the code region is dropped,
    and the catalog is never empty. *)
Theorem catalog_addresses (buf : list byte) (a : DOSExeAnalyzer)
    (c : Catalog) :
  parse_mz_header buf = inr a → discover buf = inr c →
  (∀ addr,
     (∃ r, r ∈ cat_functions c ∧ entry_linear r = Py.hex addr)
     ↔ addr = entry_point a
       ∨ (addr ∈ (find_call_targets a).1 ∧ code_start a ≤ addr))
  ∧ length (cat_functions c)
    = size ({[entry_point a]}
            ∪ filter (λ t, code_start a ≤ t) (find_call_targets a).1)
  ∧ (1 ≤ length (cat_functions c))%nat.
Proof.
  intros Hp Hd.
  pose proof Hp as (_ & Hfs & _)%parse_mz_header_inr.
  assert (∀ k, is_Some (functions (analyze a) !! k)
               ↔ k = entry_point a
                 ∨ (k ∈ (find_call_targets a).1 ∧ code_start a ≤ k)) as Hkeys.
  { intros k. rewrite analyze_functions_lookup, merge_candidates_lookup by done.
    rewrite fmap_is_Some.
    destruct (decide (k = entry_point a)); [split; [by left|by eexists]|].
    case_decide; [split; [by right|by eexists]|].
    split; [by intros [? ?]|tauto]. }
  assert (dom (functions (analyze a))
          = {[entry_point a]}
            ∪ filter (λ t, code_start a ≤ t) (find_call_targets a).1) as Hdom.
  { apply set_eq. intros k.
    rewrite elem_of_dom, Hkeys, elem_of_union, elem_of_singleton,
      elem_of_filter. tauto. }
  assert (length (cat_functions c) = size (dom (functions (analyze a))))
    as Hlen.
  { rewrite (discover_of_parse _ _ Hp) in Hd. injection Hd as <-. simpl.
    rewrite <- (length_fmap entry_linear), export_functions_entry_linear,
      length_fmap by (intros ??; by apply analyze_entry_linear).
    unfold size, set_size. simpl. by rewrite sorted_keys_perm. }
  split; [|split].
  - intros addr. rewrite <- Hkeys. split.
    + intros (r & Hr & Hel).
      destruct (exported_record_origin _ _ _ _ Hp Hd Hr) as (k & f & Hf & _ & Hk).
      rewrite Hel in Hk. apply hex_inj in Hk. subst k. by eexists.
    + intros [f Hf]. exists (export_record f). split.
      * rewrite (discover_of_parse _ _ Hp) in Hd. injection Hd as <-.
        apply elem_of_export_functions. eauto.
      * simpl. by eapply analyze_entry_linear.
  - by rewrite Hlen, Hdom.
  - rewrite Hlen, Hdom.
    pose proof (subseteq_size ({[entry_point a]} : gset Z) _
                  (union_subseteq_l _
                     (filter (λ t, code_start a ≤ t) (find_call_targets a).1)))
      as Hsz.
    by rewrite size_singleton in Hsz.
Qed.

Lemma catalog_addresses_witness :
  ∃ a c, parse_mz_header Samples.many_callers = inr a
    ∧ discover Samples.many_callers = inr c
    ∧ length (cat_functions c) = 2%nat
    ∧ (∀ addr,
         (∃ r, r ∈ cat_functions c ∧ entry_linear r = Py.hex addr)
         ↔ addr = entry_point a
           ∨ (addr ∈ (find_call_targets a).1 ∧ code_start a ≤ addr)).
Proof.
  eexists. eexists.
  split; [vm_compute; reflexivity|]. split; [vm_compute; reflexivity|].
  split; [reflexivity|].
  apply (catalog_addresses Samples.many_callers); vm_compute; reflexivity.
Defined.

(** ** Running [analyze] twice *)

Lemma find_containing_function_dom (fs fs' : gmap Z FunctionInfo) (addr : Z) :
  dom fs = dom fs' →
  find_containing_function fs addr = find_containing_function fs' addr.
Proof. unfold find_containing_function. by intros ->. Qed.

Lemma int_loop_dom (cstart n : Z) (fs fs' : gmap Z FunctionInfo) (m : nat) :
  dom fs = dom fs' →
  ∀ rest i iu,
    (length rest ≤ m)%nat →
    int_loop cstart n fs i rest iu = int_loop cstart n fs' i rest iu.
Proof.
  intros Hdom. induction m as [|m IH]; intros rest i iu Hm.
  { destruct rest; [done|simpl in Hm; lia]. }
  destruct rest as [|b tl]; [done|]. cbn [int_loop].
  destruct (i <? n - 1); [|done]. simpl in Hm.
  destruct (Py.b2z b =? 0xCD).
  - destruct tl as [|v rest2]; [done|].
    rewrite (find_containing_function_dom fs fs') by done.
    apply IH. simpl in *. lia.
  - apply IH. lia.
Qed.

Lemma finish_record_idem (a : DOSExeAnalyzer) (fs2 : gmap Z FunctionInfo)
    (k : Z) (f : FunctionInfo) :
  finish_record a fs2 k (finish_record a fs2 k f) = finish_record a fs2 k f.
Proof. unfold finish_record. by destruct (_ !! k). Qed.

Lemma find_call_targets_analyze (a : DOSExeAnalyzer) (t : Z) :
  t ∈ (find_call_targets (analyze a)).1 ↔ t ∈ (find_call_targets a).1.
Proof.
  rewrite !find_call_targets_events, !record_calls_targets.
  by destruct (analyze_fields a) as (-> & -> & _).
Qed.

Lemma merge_candidates_analyze (a : DOSExeAnalyzer) (k : Z) :
  (merge_candidates (analyze a)).1 !! k
  = <[entry_point a := entry_record a]> (functions (analyze a)) !! k.
Proof.
  rewrite merge_candidates_lookup_gen.
  destruct (analyze_fields a) as (_ & Hcs & Hep).
  unfold entry_record. rewrite Hep, Hcs. fold (entry_record a).
  destruct (<[entry_point a:=entry_record a]> (functions (analyze a)) !! k)
    eqn:Hk; [done|].
  rewrite decide_False; [done|]. intros [Ht Hle].
  rewrite find_call_targets_analyze in Ht.
  destruct (decide (k = entry_point a)) as [->|Hne];
    [by rewrite lookup_insert_eq in Hk|].
  rewrite lookup_insert_ne, analyze_functions_lookup,
    merge_candidates_lookup_gen in Hk by done.
  destruct (<[entry_point a:=entry_record a]> (functions a) !! k);
    [done|].
  by rewrite decide_True in Hk.
Qed.

Lemma merge_candidates_entry (a : DOSExeAnalyzer) :
  (merge_candidates a).1 !! entry_point a = Some (entry_record a).
Proof. by rewrite merge_candidates_lookup_gen, lookup_insert_eq. Qed.

(** X9: running [analyze] a second time on the same analyzer leaves the
    function table, and so the exported catalog, unchanged; the call
    edge map is not reset between runs, so every list of sources in it
    is doubled. *)
Theorem analyze_twice (buf : list byte) (a : DOSExeAnalyzer) :
  parse_mz_header buf = inr a →
  functions (analyze (analyze a)) = functions (analyze a)
  ∧ export_json (analyze (analyze a)) = export_json (analyze a)
  ∧ ∀ t, call_sources (analyze (analyze a)) !! t
         = (λ srcs, srcs ++ srcs) <$> call_sources (analyze a) !! t.
Proof.
  intros Hp. apply parse_mz_header_inr in Hp as (_ & _ & Hcs & _).
  destruct (analyze_fields a) as (Hdata & Hcstart & Hep).
  assert (dom (merge_candidates (analyze a)).1 = dom (merge_candidates a).1)
    as Hdom.
  { apply set_eq. intros k. rewrite !elem_of_dom, merge_candidates_analyze.
    destruct (decide (k = entry_point a)) as [->|Hne].
    - rewrite lookup_insert_eq, merge_candidates_entry. split; by eexists.
    - rewrite lookup_insert_ne, analyze_functions_lookup by done.
      by rewrite fmap_is_Some. }
  assert (∀ k f, finish_record (analyze a) (merge_candidates (analyze a)).1 k f
                 = finish_record a (merge_candidates a).1 k f) as Hfin.
  { intros k f. unfold finish_record, find_interrupt_handlers.
    rewrite Hdata, Hcstart, (sorted_keys_dom _ _ Hdom).
    by rewrite (int_loop_dom _ _ _ _ _ Hdom _ _ _ (le_n _)). }
  assert (functions (analyze (analyze a)) = functions (analyze a)) as Hfs.
  { apply map_eq. intros k.
    rewrite (analyze_functions_lookup (analyze a)), merge_candidates_analyze.
    destruct (decide (k = entry_point a)) as [->|Hne].
    - rewrite lookup_insert_eq, analyze_functions_lookup,
        merge_candidates_entry. simpl. by rewrite Hfin.
    - rewrite lookup_insert_ne, analyze_functions_lookup by done.
      destruct (_ !! k) as [f|]; [|done]. simpl.
      by rewrite Hfin, finish_record_idem. }
  split; [done|]. split; [unfold export_json; by rewrite Hfs|].
  intros t. rewrite !analyze_call_sources, !find_call_targets_events.
  rewrite !record_calls_sources, Hdata, Hcstart. cbn [snd].
  rewrite analyze_call_sources, find_call_targets_events,
    record_calls_sources, Hcs. cbn [snd]. rewrite lookup_empty.
  by case_decide.
Qed.

Lemma analyze_twice_witness :
  ∃ a, parse_mz_header Samples.scenario = inr a
    ∧ call_sources (analyze a) !! 32 = Some [50]
    ∧ call_sources (analyze (analyze a)) !! 32 = Some [50; 50]
    ∧ functions (analyze (analyze a)) = functions (analyze a).
Proof.
  eexists. split; [vm_compute; reflexivity|].
  split; [vm_compute; reflexivity|]. split; [vm_compute; reflexivity|].
  eapply (analyze_twice Samples.scenario). vm_compute. reflexivity.
Defined.

(** ** Extents *)

Lemma first_ret_le_length (j : Z) (code : list byte) (r : Z) :
  first_ret j code = Some r → r ≤ j + Py.len code.
Proof.
  revert j. induction code as [|b tl IH]; intros j; simpl; [done|].
  unfold Py.len in *. simpl.
  destruct (is_ret b); [intros [= <-]; lia|].
  intros Hr%IH. lia.
Qed.

Lemma slice_len_le (buf : list byte) (lo hi : Z) :
  0 ≤ lo ≤ hi → Py.len (Py.slice buf lo hi) ≤ hi - lo.
Proof.
  intros Hlh. unfold Py.slice, Py.norm_bound, Py.len.
  destruct (Z.ltb_spec lo 0) as [?|_]; [lia|].
  destruct (Z.ltb_spec hi 0) as [?|_]; [lia|].
  rewrite length_take, length_drop. lia.
Qed.

Lemma estimate_size_within (buf : list byte) (addr next_func : Z) :
  0 ≤ addr ≤ next_func →
  0 ≤ estimate_size buf addr next_func ≤ next_func - addr.
Proof.
  intros Hle. unfold estimate_size.
  destruct (first_ret 0 _) as [r|] eqn:Hr; [|lia].
  pose proof (first_ret_positive _ _ _ Hr).
  pose proof (first_ret_le_length _ _ _ Hr).
  pose proof (slice_len_le buf addr next_func Hle).
  destruct (Z.eqb_spec r 0); lia.
Qed.

(** The window of the [i]-th address ends at a later address inside the
    file, when the entry point is not beyond the end of the file. *)
Lemma exported_window_ordered (buf : list byte) (a : DOSExeAnalyzer)
    (i : nat) (addr : Z) :
  parse_mz_header buf = inr a → entry_point a ≤ Py.len buf →
  sorted_keys (functions (analyze a)) !! i = Some addr →
  let next_start :=
    default (Py.len buf) (sorted_keys (functions (analyze a)) !! S i) in
  0 ≤ addr ≤ next_start ∧ next_start ≤ Py.len buf.
Proof.
  intros Hp Hentry Hi next_start.
  pose proof Hp as (Hdata & Hfs & Hcs & _)%parse_mz_header_inr.
  assert (∀ k, k ∈ sorted_keys (functions (analyze a)) →
               0 ≤ k ≤ Py.len buf) as Hrange.
  { intros k Hk%elem_of_sorted_keys. split.
    - by eapply analyze_keys_nonneg.
    - destruct Hk as [f Hf]. apply analyze_lookup in Hf; [|done].
      destruct Hf as [[-> _]|(_ & Ht & _)]; [done|].
      destruct (find_call_targets_inv a Hcs) as (j & _ & _ & Hb).
      apply Hb in Ht. rewrite Hdata in Ht. lia. }
  pose proof (Hrange addr (list_elem_of_lookup_2 _ _ _ Hi)) as Haddr.
  unfold next_start.
  destruct (sorted_keys (functions (analyze a)) !! S i) as [next|] eqn:Hn;
    simpl; [|lia].
  pose proof (Hrange next (list_elem_of_lookup_2 _ _ _ Hn)).
  pose proof (StronglySorted_lt_next _ _ _ _
                (sorted_keys_strict (functions (analyze a))) Hi Hn). lia.
Qed.

(** X10: when the entry point is not beyond the end of the file, the
    estimated extent of every exported function is non-negative and
    ends at or before the next exported address (the end of the file
    for the last one): extents never overlap and stay inside the
    file. *)
Theorem exported_extents_do_not_overlap (buf : list byte)
    (a : DOSExeAnalyzer) (c : Catalog) (i : nat) (addr : Z)
    (r : FunctionInfo) :
  parse_mz_header buf = inr a → discover buf = inr c →
  entry_point a ≤ Py.len buf →
  sorted_keys (functions (analyze a)) !! i = Some addr →
  cat_functions c !! i = Some r →
  let next_start :=
    default (Py.len buf) (sorted_keys (functions (analyze a)) !! S i) in
  entry_linear r = Py.hex addr
  ∧ 0 ≤ size_bytes r
  ∧ addr + size_bytes r ≤ next_start ≤ Py.len buf.
Proof.
  intros Hp Hd Hentry Hi Hr next_start.
  destruct (exported_size _ _ _ _ _ _ Hp Hd Hi Hr) as [Hel Hsz].
  destruct (exported_window_ordered _ _ _ _ Hp Hentry Hi) as [Hord Hend].
  fold next_start in Hsz, Hord, Hend.
  pose proof (estimate_size_within buf addr next_start Hord).
  split; [done|]. lia.
Qed.

Lemma exported_extents_do_not_overlap_witness :
  ∃ a c r, parse_mz_header Samples.scenario = inr a
    ∧ discover Samples.scenario = inr c
    ∧ cat_functions c !! 0%nat = Some r
    ∧ size_bytes r = 9
    ∧ let next_start :=
        default (Py.len Samples.scenario)
          (sorted_keys (functions (analyze a)) !! 1%nat) in
      entry_linear r = Py.hex 32
      ∧ 0 ≤ size_bytes r
      ∧ 32 + size_bytes r ≤ next_start ≤ Py.len Samples.scenario.
Proof.
  eexists. eexists. eexists.
  split; [vm_compute; reflexivity|]. split; [vm_compute; reflexivity|].
  split; [reflexivity|]. split; [reflexivity|].
  eapply (exported_extents_do_not_overlap Samples.scenario).
  - vm_compute. reflexivity.
  - vm_compute. reflexivity.
  - vm_compute. discriminate.
  - vm_compute. reflexivity.
  - reflexivity.
Defined.

(** ** Coverage summaries *)

Lemma tally_sum_tally (key : string) (counts : gmap string Z) :
  tally_sum (tally key counts) = tally_sum counts + 1.
Proof.
  assert (∀ (m : gmap string Z) (j1 j2 : string) (z1 z2 y : Z),
            j1 ≠ j2 → m !! j1 = Some z1 → m !! j2 = Some z2 →
            z1 + (z2 + y) = z2 + (z1 + y)) as Hcomm by (intros; lia).
  unfold tally, tally_sum.
  destruct (counts !! key) as [v|] eqn:Hk; simpl.
  - rewrite (map_fold_delete_L _ _ key v counts (Hcomm counts) Hk).
    rewrite <- insert_delete_eq.
    rewrite map_fold_insert_L; [lia|apply Hcomm|apply lookup_delete_eq].
  - rewrite map_fold_insert_L; [lia|apply Hcomm|done].
Qed.

Lemma tally_lookup (key : string) (counts : gmap string Z) (k : string) :
  tally key counts !! k
  = if decide (k = key) then Some (default 0 (counts !! key) + 1)
    else counts !! k.
Proof.
  unfold tally. rewrite lookup_insert.
  destruct (decide (key = k)) as [->|Hne].
  - by rewrite decide_True.
  - by rewrite decide_False by (intros ->; done).
Qed.

(** The subsystem tally adds up to the number of functions, and its
    entries are positive counts of subsystems that occur. *)
Lemma summary_subsystems (fs : gmap Z FunctionInfo) (Q : string → Prop) :
  let counts := (map_fold (λ _ f st, summary_step f st) (∅, ∅) fs).1 in
  tally_sum counts = Z.of_nat (size fs)
  ∧ ((∀ k f, fs !! k = Some f → Q (subsystem f)) →
     ∀ sub n, counts !! sub = Some n → Q sub ∧ 1 ≤ n).
Proof.
  apply (map_fold_weak_ind
           (λ r m, tally_sum r.1 = Z.of_nat (size m)
                   ∧ ((∀ k f, m !! k = Some f → Q (subsystem f)) →
                      ∀ sub n, r.1 !! sub = Some n → Q sub ∧ 1 ≤ n))).
  - split; [done|]. intros _ sub n. simpl. by rewrite lookup_empty.
  - intros i f m r Hnone [IHsum IHq]. cbn [summary_step fst]. split.
    + rewrite tally_sum_tally, IHsum, map_size_insert_None by done. lia.
    + intros HQ sub n. rewrite tally_lookup.
      assert (∀ k f', m !! k = Some f' → Q (subsystem f')) as HQm.
      { intros k f' Hk. apply (HQ k). rewrite lookup_insert_ne; [done|].
        intros ->. congruence. }
      case_decide as Hsub; [|by apply IHq].
      subst sub. intros [= <-]. split; [apply (HQ i), lookup_insert_eq|].
      destruct (r.1 !! subsystem f) as [n0|] eqn:Hn0; simpl; [|lia].
      destruct (IHq HQm _ _ Hn0). lia.
Qed.

Lemma named_functions_one (fs : gmap Z FunctionInfo) (entry : Z) :
  is_Some (fs !! entry) →
  (∀ k f, fs !! k = Some f →
          Py.str_startswith "FUN_" (name f) = false ↔ k = entry) →
  map_fold (λ _ f n, if Py.str_startswith "FUN_" (name f) then n else n + 1)
    0 fs = 1.
Proof.
  intros Hentry Hnames.
  assert (map_fold (λ _ f n, if Py.str_startswith "FUN_" (name f) then n
                             else n + 1) 0 fs
          = if decide (is_Some (fs !! entry)) then 1 else 0) as ->;
    [|by rewrite decide_True].
  revert Hnames. clear Hentry.
  refine (map_fold_weak_ind
            (λ r m, (∀ k f, m !! k = Some f →
                            Py.str_startswith "FUN_" (name f) = false
                            ↔ k = entry) →
                    r = if decide (is_Some (m !! entry)) then 1 else 0)
            _ 0 _ _ fs).
  - intros _. rewrite decide_False; [done|].
    rewrite lookup_empty. by intros [? ?].
  - intros i f m r Hnone IH Hnames.
    assert (r = if decide (is_Some (m !! entry)) then 1 else 0) as ->.
    { apply IH. intros k f' Hk. apply Hnames.
      rewrite lookup_insert_ne; [done|]. intros ->. congruence. }
    pose proof (Hnames i f (lookup_insert_eq _ _ _)) as Hi.
    destruct (decide (i = entry)) as [->|Hne].
    + rewrite (proj2 Hi) by done.
      rewrite decide_False by (rewrite Hnone; by intros [? ?]).
      rewrite decide_True; [done|]. rewrite lookup_insert_eq. by eexists.
    + destruct (Py.str_startswith "FUN_" (name f)); [|tauto].
      rewrite lookup_insert_ne by done. done.
Qed.

(** The final table of an accepted image: names, subsystems, tags. *)
Lemma analyze_table_facts (buf : list byte) (a : DOSExeAnalyzer)
    (k : Z) (f : FunctionInfo) :
  parse_mz_header buf = inr a →
  functions (analyze a) !! k = Some f →
  (Py.str_startswith "FUN_" (name f) = false ↔ k = entry_point a)
  ∧ name f ≠ ""
  ∧ Py.str_startswith "FUN_" (Py.str_lower (name f)) = false
  ∧ subsystem f
    ∈ ["video"; "dos"; "input"; "timer"; "mouse"; "sound"; "unknown"].
Proof.
  intros Hp Hf. pose proof Hp as (_ & Hfs & _)%parse_mz_header_inr.
  assert (subsystem f
          ∈ ["video"; "dos"; "input"; "timer"; "mouse"; "sound"; "unknown"])
    as Hsub.
  { rewrite analyze_functions_lookup in Hf.
    destruct ((merge_candidates a).1 !! k) as [f2|] eqn:Hf2; [|done].
    injection Hf as <-. unfold finish_record.
    destruct (find_interrupt_handlers a _ !! k); simpl;
      [apply classify_subsystem_values|].
    rewrite merge_candidates_lookup in Hf2 by done.
    repeat case_decide; try done; injection Hf2 as <-; by_compute. }
  apply analyze_lookup in Hf; [|done].
  destruct Hf as [[-> Hid]|(Hne & _ & _ & note & Hid)];
    destruct Hid as (<- & _); simpl.
  - repeat split; try done.
  - split; [split; [done|tauto]|]. split; [done|].
    split; [|done]. reflexivity.
Qed.

(** X11: for the table of an accepted image the summary numbers are
    consistent: "Total functions" is at least 1 and equals the sum of
    the per-subsystem counts, every count is positive and belongs to one
    of the seven subsystem tags, and "Named functions" is always 1 (only
    the entry record has a name that does not start with "FUN_"). *)
Theorem coverage_summary_totals (buf : list byte) (a : DOSExeAnalyzer) :
  parse_mz_header buf = inr a →
  let s := export_coverage_summary (analyze a) in
  total_functions s = tally_sum (subsystems s)
  ∧ 1 ≤ total_functions s
  ∧ named_functions s = 1
  ∧ ∀ sub n, subsystems s !! sub = Some n →
      sub ∈ ["video"; "dos"; "input"; "timer"; "mouse"; "sound"; "unknown"]
      ∧ 1 ≤ n.
Proof.
  intros Hp s. unfold s, export_coverage_summary.
  cbn [total_functions named_functions subsystems].
  pose proof Hp as (_ & Hfs & _)%parse_mz_header_inr.
  destruct (analyze_entry a Hfs) as (fe & Hfe & _).
  destruct (summary_subsystems (functions (analyze a))
              (λ sub, sub ∈ ["video"; "dos"; "input"; "timer"; "mouse";
                             "sound"; "unknown"])) as [Hsum Hq].
  split; [by rewrite Hsum|]. split; [|split].
  - assert (size (functions (analyze a)) ≠ 0%nat); [|lia].
    intros Hz%map_size_empty_iff. by rewrite Hz, lookup_empty in Hfe.
  - apply (named_functions_one _ (entry_point a)); [by eexists|].
    intros k f Hf. by apply (analyze_table_facts buf a k f).
  - apply Hq. intros k f Hf. by apply (analyze_table_facts buf a k f).
Qed.

Lemma coverage_summary_totals_witness :
  ∃ a, parse_mz_header Samples.many_callers = inr a
    ∧ total_functions (export_coverage_summary (analyze a)) = 2
    ∧ subsystems (export_coverage_summary (analyze a)) !! "unknown" = Some 2
    ∧ named_functions (export_coverage_summary (analyze a)) = 1.
Proof.
  eexists. split; [vm_compute; reflexivity|].
  split; [vm_compute; reflexivity|]. split; [vm_compute; reflexivity|].
  eapply (coverage_summary_totals Samples.many_callers).
  vm_compute. reflexivity.
Defined.

(** *** The report of [coverage_report.py] *)

Lemma lower_char_not_F (c : ascii) : Ascii.eqb "F" (Py.lower_char c) = false.
Proof. destruct c as [[] [] [] [] [] [] [] []]; reflexivity. Qed.

Lemma str_lower_not_FUN (s : string) :
  Py.str_startswith "FUN_" (Py.str_lower s) = false.
Proof.
  destruct s as [|c s]; [reflexivity|].
  cbn [Py.str_lower Py.str_startswith]. by rewrite lower_char_not_F.
Qed.

Lemma report_named_foldl (fns : list FunctionInfo) (st : report_state) :
  (foldl report_step st fns).1.2
  = st.1.2 + Py.len (filter (λ fn, name fn ≠ "") fns).
Proof.
  revert st. induction fns as [|fn fns IH]; intros st.
  { unfold Py.len. simpl. lia. }
  cbn [foldl]. rewrite IH. destruct st as [[bs named] iu].
  unfold report_step. cbn [fst snd]. rewrite str_lower_not_FUN.
  rewrite filter_cons. unfold Py.len.
  case_bool_decide as Hn; simpl.
  - rewrite decide_False by (by intros ?). lia.
  - rewrite decide_True by done. simpl. lia.
Qed.

Lemma filter_all {A} (P : A → Prop) `{∀ x, Decision (P x)} (l : list A) :
  Forall P l → filter P l = l.
Proof.
  induction 1 as [|x l Hx Hl IH]; [done|].
  by rewrite filter_cons_True, IH.
Qed.

(** X12: [coverage_report.py] counts as named every function whose name
    is not empty, names starting with "FUN_" included: it looks for the
    upper-case prefix in the lower-cased name, which never matches.  On
    the catalog of an accepted image its "Named functions" therefore
    equals its "Total functions", where [export_coverage_summary] says
    1. *)
Theorem coverage_report_names_everything (buf : list byte)
    (a : DOSExeAnalyzer) (c : Catalog) :
  parse_mz_header buf = inr a → discover buf = inr c →
  report_named (cat_functions c) = report_total (cat_functions c)
  ∧ report_total (cat_functions c)
    = total_functions (export_coverage_summary (analyze a))
  ∧ named_functions (export_coverage_summary (analyze a)) = 1
  ∧ ∀ fns, report_named fns = Py.len (filter (λ fn, name fn ≠ "") fns).
Proof.
  intros Hp Hd.
  assert (∀ fns, report_named fns = Py.len (filter (λ fn, name fn ≠ "") fns))
    as Hgen.
  { intros fns. unfold report_named, coverage_report.
    rewrite report_named_foldl. simpl. lia. }
  split; [|split; [|split; [|done]]].
  - rewrite Hgen. unfold report_total. f_equal.
    apply filter_all, Forall_forall. intros r Hr.
    destruct (exported_record_origin _ _ _ _ Hp Hd Hr) as (k & f & Hf & -> & _).
    simpl. by apply (analyze_table_facts buf a k f).
  - rewrite (discover_of_parse _ _ Hp) in Hd. injection Hd as <-.
    unfold report_total, Py.len, export_coverage_summary. simpl. f_equal.
    rewrite <- (length_fmap entry_linear), export_functions_entry_linear,
      length_fmap
      by (intros ??; apply analyze_entry_linear;
          by apply parse_mz_header_inr in Hp as (_ & ? & _)).
    by rewrite sorted_keys_perm, <- size_dom.
  - pose proof Hp as (_ & Hfs & _)%parse_mz_header_inr.
    destruct (analyze_entry a Hfs) as (fe & Hfe & _).
    unfold export_coverage_summary. simpl.
    apply (named_functions_one _ (entry_point a)); [by eexists|].
    intros k f Hf. by apply (analyze_table_facts buf a k f).
Qed.

Lemma coverage_report_names_everything_witness :
  ∃ a c, parse_mz_header Samples.many_callers = inr a
    ∧ discover Samples.many_callers = inr c
    ∧ (name <$> cat_functions c) = ["entry"; "FUN_00042"]
    ∧ report_named (cat_functions c) = 2
    ∧ report_named (cat_functions c) = report_total (cat_functions c).
Proof.
  eexists. eexists.
  split; [vm_compute; reflexivity|]. split; [vm_compute; reflexivity|].
  split; [reflexivity|]. split; [vm_compute; reflexivity|].
  eapply (coverage_report_names_everything Samples.many_callers);
    vm_compute; reflexivity.
Defined.

(** ** More on the exported records *)

Lemma b2z_inj (b b' : byte) : Py.b2z b = Py.b2z b' → b = b'.
Proof.
  unfold Py.b2z. intros H%N2Z.inj.
  pose proof (Byte.of_to_N b) as Hb. rewrite H, Byte.of_to_N in Hb.
  by injection Hb.
Qed.

Lemma analyze_keys (buf : list byte) (a : DOSExeAnalyzer) (k : Z) :
  parse_mz_header buf = inr a →
  is_Some (functions (analyze a) !! k)
  ↔ k = entry_point a ∨ (k ∈ (find_call_targets a).1 ∧ code_start a ≤ k).
Proof.
  intros (_ & Hfs & _)%parse_mz_header_inr.
  rewrite analyze_functions_lookup, merge_candidates_lookup by done.
  rewrite fmap_is_Some.
  destruct (decide (k = entry_point a)); [split; [by left|by eexists]|].
  case_decide; [split; [by right|by eexists]|].
  split; [by intros [? ?]|tauto].
Qed.

Lemma analyze_keys_merged (a : DOSExeAnalyzer) (k : Z) :
  is_Some (functions (analyze a) !! k) ↔ is_Some ((merge_candidates a).1 !! k).
Proof. by rewrite analyze_functions_lookup, fmap_is_Some. Qed.

Lemma call_sources_nonempty (a : DOSExeAnalyzer) (t : Z) (srcs : list Z) :
  call_sources a = ∅ →
  (find_call_targets a).2 !! t = Some srcs → srcs ≠ [].
Proof.
  intros Hcs. rewrite find_call_targets_events, record_calls_sources, Hcs.
  simpl. rewrite lookup_empty. case_decide; [done|]. by intros [= <-].
Qed.

Lemma StronglySorted_lt_NoDup (l : list Z) : StronglySorted Z.lt l → NoDup l.
Proof.
  induction 1 as [|x l Hs IH Hall]; constructor; [|done].
  rewrite Forall_forall in Hall. intros Hx%Hall. lia.
Qed.

(** X13: every tag in the [int_usage] of an exported record prints the
    vector of an INT instruction (0xCD, vector) that lies in the code
    region at or after the record's address, with no other exported
    address between the record's address and the instruction: the
    nearest preceding function start gets the interrupt, however far
    away it is. *)
Theorem exported_interrupt_attribution (buf : list byte)
    (a : DOSExeAnalyzer) (c : Catalog) (r : FunctionInfo) (addr : Z)
    (tag : string) :
  parse_mz_header buf = inr a → discover buf = inr c →
  r ∈ cat_functions c → entry_linear r = Py.hex addr →
  tag ∈ int_usage r →
  ∃ (p : Z) (vector : byte),
    addr ≤ p ∧ code_start a ≤ p
    ∧ buf !! Z.to_nat p = Some xcd
    ∧ buf !! Z.to_nat (p + 1) = Some vector
    ∧ tag = Py.hex02 (Py.b2z vector)
    ∧ ∀ r' addr', r' ∈ cat_functions c → entry_linear r' = Py.hex addr' →
                  addr' ≤ p → addr' ≤ addr.
Proof.
  intros Hp Hd Hr Hel Htag.
  destruct (exported_record_origin _ _ _ _ Hp Hd Hr) as (k & f & Hf & -> & Hk).
  rewrite Hel in Hk. apply hex_inj in Hk. subst k.
  pose proof (parse_mz_header_bounds _ _ Hp) as [Hc0 _].
  pose proof Hp as (Hdata & Hfs & _)%parse_mz_header_inr.
  rewrite analyze_functions_lookup in Hf.
  destruct ((merge_candidates a).1 !! addr) as [f2|] eqn:Hf2; [|done].
  injection Hf as <-. unfold finish_record in Htag. simpl in Htag.
  destruct (find_interrupt_handlers a (merge_candidates a).1 !! addr)
    as [ints|] eqn:Hints; simpl in Htag.
  2:{ rewrite merge_candidates_lookup in Hf2 by done.
      repeat case_decide; try done; injection Hf2 as <-;
        by apply elem_of_nil in Htag. }
  destruct (find_interrupt_handlers_inv _ _ _ _ Hints) as (_ & _ & Hall).
  rewrite Forall_forall in Hall.
  destruct (Hall tag Htag) as (p & op & v & Hop & Hcd & Hv & -> & Hfc).
  apply find_containing_function_Some in Hfc as (_ & Hle & Hmax).
  rewrite Hdata, slice_from_lookup_eq in Hop, Hv by done.
  replace (code_start a + Z.of_nat (S p))
    with (code_start a + Z.of_nat p + 1) in Hv by lia.
  assert (op = xcd) as -> by (by apply b2z_inj).
  exists (code_start a + Z.of_nat p), v.
  split; [done|]. split; [lia|]. split; [done|]. split; [done|].
  split; [done|]. intros r' addr' Hr' Hel' Hle'.
  destruct (exported_record_origin _ _ _ _ Hp Hd Hr')
    as (k' & f' & Hf' & _ & Hk').
  rewrite Hel' in Hk'. apply hex_inj in Hk'. subst k'.
  apply Hmax; [|done]. apply analyze_keys_merged. by eexists.
Qed.

Lemma exported_interrupt_attribution_witness :
  ∃ a c r, parse_mz_header Samples.video_dos = inr a
    ∧ discover Samples.video_dos = inr c
    ∧ cat_functions c = [r]
    ∧ int_usage r = ["0x10"; "0x21"]
    ∧ ∃ (p : Z) (vector : byte),
        32 ≤ p ∧ code_start a ≤ p
        ∧ Samples.video_dos !! Z.to_nat p = Some xcd
        ∧ Samples.video_dos !! Z.to_nat (p + 1) = Some vector
        ∧ "0x21" = Py.hex02 (Py.b2z vector)
        ∧ ∀ r' addr', r' ∈ cat_functions c →
                      entry_linear r' = Py.hex addr' →
                      addr' ≤ p → addr' ≤ 32.
Proof.
  eexists. eexists. eexists.
  split; [vm_compute; reflexivity|]. split; [vm_compute; reflexivity|].
  split; [reflexivity|]. split; [reflexivity|].
  eapply (exported_interrupt_attribution Samples.video_dos).
  - vm_compute. reflexivity.
  - vm_compute. reflexivity.
  - left.
  - reflexivity.
  - by_compute.
Defined.

(** X14: an exported record at an address other than the entry point
    has between 1 and 10 callers, all different: every such record is a
    call target, so at least one call site was recorded for it. *)
Theorem exported_candidate_has_callers (buf : list byte)
    (a : DOSExeAnalyzer) (c : Catalog) (r : FunctionInfo) (addr : Z) :
  parse_mz_header buf = inr a → discover buf = inr c →
  r ∈ cat_functions c → entry_linear r = Py.hex addr →
  addr ≠ entry_point a →
  (1 ≤ length (callers r) ≤ 10)%nat ∧ NoDup (callers r).
Proof.
  intros Hp Hd Hr Hel Hne.
  destruct (exported_callers _ _ _ _ Hp Hd Hr) as (k & Hk & _ & Hother).
  rewrite Hel in Hk. apply hex_inj in Hk. subst k.
  destruct (Hother Hne) as (Ht & _ & ->).
  apply parse_mz_header_inr in Hp as (_ & _ & Hcs & _).
  destruct (find_call_targets_inv a Hcs) as (j & _ & Hdom & _).
  rewrite Hdom in Ht. apply elem_of_dom in Ht as [srcs Hs]. rewrite Hs. simpl.
  pose proof (call_sources_nonempty a addr srcs Hcs Hs) as Hnil.
  destruct (find_call_targets_sources a addr Hcs) as [Hsorted _].
  rewrite Hs in Hsorted. simpl in Hsorted. split.
  - rewrite length_take, length_fmap. destruct srcs; [done|]. cbn [length]. lia.
  - eapply sublist_NoDup; [|apply sublist_take].
    apply (@NoDup_fmap_2 _ _ Py.hex hex_inj). by apply StronglySorted_lt_NoDup.
Qed.

Lemma exported_candidate_has_callers_witness :
  ∃ a c r, parse_mz_header Samples.many_callers = inr a
    ∧ discover Samples.many_callers = inr c
    ∧ cat_functions c !! 1%nat = Some r
    ∧ length (callers r) = 10%nat
    ∧ (1 ≤ length (callers r) ≤ 10)%nat ∧ NoDup (callers r).
Proof.
  eexists. eexists. eexists.
  split; [vm_compute; reflexivity|]. split; [vm_compute; reflexivity|].
  split; [reflexivity|]. split; [reflexivity|].
  eapply (exported_candidate_has_callers Samples.many_callers _ _ _ 66).
  - vm_compute. reflexivity.
  - vm_compute. reflexivity.
  - right. left.
  - reflexivity.
  - by_compute.
Defined.

(** ** Edge cases of the image *)

Lemma slice_beyond (buf : list byte) (lo hi : Z) :
  Py.len buf ≤ lo → Py.slice buf lo hi = [].
Proof.
  intros Hlo. pose proof (len_nonneg buf) as Hnn.
  unfold Py.slice, Py.len in *. cbv zeta.
  rewrite (drop_ge buf); [apply take_nil|].
  unfold Py.norm_bound. destruct (Z.ltb_spec lo 0) as [?|_]; lia.
Qed.

(** X15: when the entry point lies beyond the end of an accepted file,
    the entry record is the last record of the catalog and its
    [size_bytes] is [len(file) - entry_point], a negative number. *)
Theorem entry_beyond_file_negative_size (buf : list byte)
    (a : DOSExeAnalyzer) (c : Catalog) :
  parse_mz_header buf = inr a → discover buf = inr c →
  Py.len buf < entry_point a →
  ∃ r, last (cat_functions c) = Some r
    ∧ entry_linear r = Py.hex (entry_point a)
    ∧ size_bytes r = Py.len buf - entry_point a
    ∧ size_bytes r < 0.
Proof.
  intros Hp Hd Hbeyond.
  pose proof Hp as (Hdata & Hfs & Hcs & _)%parse_mz_header_inr.
  set (keys := sorted_keys (functions (analyze a))).
  assert (entry_point a ∈ keys) as Hin.
  { apply elem_of_sorted_keys, (analyze_keys buf); [done|by left]. }
  apply list_elem_of_lookup_1 in Hin as [i Hi].
  assert (keys !! S i = None) as Hlast.
  { destruct (keys !! S i) as [next|] eqn:Hn; [|done]. exfalso.
    pose proof (StronglySorted_lt_next _ _ _ _
                  (sorted_keys_strict (functions (analyze a))) Hi Hn) as Hlt.
    apply list_elem_of_lookup_2, elem_of_sorted_keys in Hn.
    apply (analyze_keys buf) in Hn; [|done].
    destruct Hn as [->|[Ht _]]; [lia|].
    destruct (find_call_targets_inv a Hcs) as (j & _ & _ & Hb).
    apply Hb in Ht. rewrite Hdata in Ht. lia. }
  assert (is_Some (cat_functions c !! i)) as [r Hr].
  { rewrite (discover_of_parse _ _ Hp) in Hd. injection Hd as <-. simpl.
    rewrite export_functions_lookup. fold keys. rewrite Hi. simpl.
    apply fmap_is_Some, elem_of_sorted_keys.
    eapply list_elem_of_lookup_2, Hi. }
  destruct (exported_size _ _ _ _ _ _ Hp Hd Hi Hr) as [Hel Hsz].
  fold keys in Hsz. rewrite Hlast in Hsz. simpl in Hsz.
  unfold estimate_size in Hsz. rewrite slice_beyond in Hsz by lia.
  simpl in Hsz. exists r. split; [|split; [done|lia]].
  assert (length (cat_functions c) = S i) as Hlen.
  { rewrite (discover_of_parse _ _ Hp) in Hd. injection Hd as <-. simpl.
    rewrite <- (length_fmap entry_linear), export_functions_entry_linear,
      length_fmap by (intros ??; by apply analyze_entry_linear).
    fold keys. apply lookup_ge_None in Hlast.
    apply lookup_lt_Some in Hi. lia. }
  rewrite last_lookup, Hlen. done.
Qed.

Lemma entry_beyond_file_negative_size_witness :
  ∃ a c, parse_mz_header Samples.oversized = inr a
    ∧ discover Samples.oversized = inr c
    ∧ ∃ r, last (cat_functions c) = Some r
        ∧ entry_linear r = Py.hex (entry_point a)
        ∧ size_bytes r = Py.len Samples.oversized - entry_point a
        ∧ size_bytes r < 0.
Proof.
  eexists. eexists.
  split; [vm_compute; reflexivity|]. split; [vm_compute; reflexivity|].
  apply (entry_beyond_file_negative_size Samples.oversized).
  - vm_compute. reflexivity.
  - vm_compute. reflexivity.
  - vm_compute. reflexivity.
Defined.

Lemma call_events_short (cstart data_len n : Z) (rest : list byte) :
  n ≤ 3 → call_events cstart data_len n 0 rest = [].
Proof.
  intros Hn. destruct rest; simpl;
    by destruct (Z.ltb_spec 0 (n - 3)) as [?|_]; [lia|].
Qed.

(** X16: when the code region of an accepted file has at most three
    bytes (in particular when [code_start] is at or beyond the end of
    the file), the call sweep finds nothing and the catalog consists of
    the entry record alone. *)
Theorem short_code_region_only_entry (buf : list byte)
    (a : DOSExeAnalyzer) (c : Catalog) :
  parse_mz_header buf = inr a → discover buf = inr c →
  Py.len buf ≤ code_start a + 3 →
  (find_call_targets a).1 = ∅
  ∧ (find_call_targets a).2 = ∅
  ∧ ∃ r, cat_functions c = [r]
      ∧ name r = "entry" ∧ entry_linear r = Py.hex (entry_point a)
      ∧ callers r = [] ∧ notes r = "Program entry point".
Proof.
  intros Hp Hd Hshort.
  pose proof (parse_mz_header_bounds _ _ Hp) as [Hc0 _].
  pose proof Hp as (Hdata & Hfs & Hcs & _)%parse_mz_header_inr.
  assert (find_call_targets a = (∅, ∅)) as Hfind.
  { rewrite find_call_targets_events, call_events_short, Hcs; [done|].
    rewrite slice_from_len, Hdata by done. lia. }
  rewrite Hfind. split; [done|]. split; [done|].
  assert (dom (functions (analyze a)) = {[entry_point a]}) as Hdom.
  { apply set_eq. intros k.
    rewrite elem_of_dom, (analyze_keys buf), Hfind, elem_of_singleton by done.
    simpl. rewrite elem_of_empty. tauto. }
  destruct (analyze_entry a Hfs) as (f & Hf & Hid).
  exists (export_record f).
  rewrite (discover_of_parse _ _ Hp) in Hd. injection Hd as <-. simpl.
  destruct Hid as (<- & <- & _ & <- & _ & <-). split; [|done].
  unfold export_functions, sorted_keys.
  rewrite Hdom, elements_singleton. simpl. by rewrite Hf.
Qed.

Lemma short_code_region_only_entry_witness :
  ∃ a c, parse_mz_header Samples.push_bp_last = inr a
    ∧ discover Samples.push_bp_last = inr c
    ∧ Py.len Samples.push_bp_last = 34
    ∧ (find_call_targets a).1 = ∅
    ∧ (find_call_targets a).2 = ∅
    ∧ ∃ r, cat_functions c = [r]
        ∧ name r = "entry" ∧ entry_linear r = Py.hex (entry_point a)
        ∧ callers r = [] ∧ notes r = "Program entry point".
Proof.
  eexists. eexists.
  split; [vm_compute; reflexivity|]. split; [vm_compute; reflexivity|].
  split; [reflexivity|].
  apply (short_code_region_only_entry Samples.push_bp_last).
  - vm_compute. reflexivity.
  - vm_compute. reflexivity.
  - vm_compute. discriminate.
Defined.
